(** * PMV thermal-comfort evaluator: a shallow embedding of
      [sustainability_calcs/pmv.py] and the properties of [calculate_pmv].

    Modelling conventions.

    - The body of [calculate_pmv] is embedded twice.  In the first embedding
      a Python [float] is read as the real number it denotes: arithmetic is
      exact arithmetic over [R].  Rounding to binary64, overflow to [inf] and
      the propagation of [nan] are outside this embedding; it carries the
      statements about values: which formula is computed, signs, bounds and
      monotonicity.
    - The second embedding, [Binary64], keeps the range of binary64: a float
      is a real number, an infinity or a NaN, a result whose magnitude
      reaches the overflow threshold becomes an infinity, and [math.exp] and
      [**] raise [OverflowError] there.  The rounding of the significand is
      still not modelled.  This embedding carries the statements about
      whether a call returns a finite number or raises, and which exception.
      On inputs of moderate magnitude the two embeddings agree
      ([calculate_pmv_agrees]).
    - Python exceptions are explicit: a computation returns [Ok v] or
      [Raise e].  The exceptions that the body of [calculate_pmv] can raise
      are [ZeroDivisionError] (float division by zero), [ValueError]
      ([math.sqrt] of a negative number) and [OverflowError] ([math.exp] or
      [**] out of range; over the reals it does not occur).
    - The optional arguments [tr] and [pa] are [option]s; [None] is Python's
      [None].
    - The local variables of the function body are kept in a record
      ([Locals.t]), so that statements about intermediate quantities are
      statements about the run of the function itself. *)

From Stdlib Require Import Reals Lra Psatz ZArith Lia.

#[local] Open Scope R_scope.

(** ** Exceptions and the error monad *)

Inductive exn : Set :=
| ZeroDivisionError
| ValueError
| OverflowError.

Inductive result (A : Type) : Type :=
| Ok (a : A)
| Raise (e : exn).

Arguments Ok {A} a.
Arguments Raise {A} e.

Definition bind {A B : Type} (c : result A) (k : A -> result B) : result B :=
  match c with
  | Ok a => k a
  | Raise e => Raise e
  end.

Notation "x <- c ;; k" := (bind c (fun x => k))
  (at level 61, c at next level, right associativity).

Definition raises {A : Type} (c : result A) : Prop :=
  exists e, c = Raise e.

(** ** Python's arithmetic primitives over the reals *)

(** [x > y] on floats. *)
Definition Rgtb (x y : R) : bool :=
  if Rgt_dec x y then true else false.

(** [x / y] on floats: [ZeroDivisionError] when the divisor is zero. *)
Definition truediv (x y : R) : result R :=
  if Req_dec_T y 0 then Raise ZeroDivisionError else Ok (x / y).

(** [math.sqrt(x)]: [ValueError] (math domain error) on a negative argument. *)
Definition math_sqrt (x : R) : result R :=
  if Rlt_dec x 0 then Raise ValueError else Ok (sqrt x).

(** [math.exp(x)], over the reals.  (Its range error on floats is in
    [Binary64.math_exp].) *)
Definition math_exp (x : R) : R := exp x.

(** [x ** y] for a float base [x >= 0] and a float exponent [y >= 0]:
    [0.0 ** 0.0] is [1.0], [0.0 ** y] is [0.0], and otherwise
    [exp (y * ln x)].  (On a negative base with a fractional exponent Python
    yields a complex number; the only call site passes [abs(...)], see
    [float_pow_base_nonneg].) *)
Definition float_pow (x y : R) : R :=
  if Req_dec_T x 0 then (if Req_dec_T y 0 then 1 else 0) else Rpower x y.

Infix ">?" := Rgtb (at level 70, no associativity) : R_scope.
Infix "//" := truediv (at level 40, left associativity) : R_scope.

(** ** The body of [calculate_pmv], one definition per assignment *)

(** Line 27: [pws = 0.6108 * math.exp(17.27 * ta / (ta + 237.3))]. *)
Definition pws (ta : R) : result R :=
  q <- (17.27 * ta) // (ta + 237.3) ;;
  Ok (0.6108 * math_exp q).

(** Lines 25-28: [pa], as given or derived from [humidity]. *)
Definition vapour_pressure (ta humidity : R) (pa : option R) : result R :=
  match pa with
  | None =>
      pws <- pws ta ;;
      h <- humidity // 100.0 ;;
      Ok (h * pws)
  | Some pa => Ok pa
  end.

(** Line 30: [hc = 2.38 * abs(ta - tr) ** 0.25 if abs(ta - tr) > 0.1
                   else 12.1 * math.sqrt(wind_speed)]. *)
Definition hc (ta tr wind_speed : R) : result R :=
  if Rabs (ta - tr) >? 0.1
  then Ok (2.38 * float_pow (Rabs (ta - tr)) 0.25)
  else s <- math_sqrt wind_speed ;; Ok (12.1 * s).

(** Line 32: [fcl = 1.05 + 0.1 * clo if clo > 0.5 else 1 + 0.2 * clo]. *)
Definition fcl (clo : R) : R :=
  if clo >? 0.5 then 1.05 + 0.1 * clo else 1 + 0.2 * clo.

(** Line 34: [tcl = ta + (35.5 - ta) / (3.5 * (6.45 * Icl + 0.1))]. *)
Definition tcl (ta Icl : R) : result R :=
  d <- (35.5 - ta) // (3.5 * (6.45 * Icl + 0.1)) ;;
  Ok (ta + d).

(** Lines 35-40: the six heat-loss terms.  ([** 4] is the fourth power of
    the reals; its range error on floats is in [Binary64.pow_4].) *)
Definition hl1 (M W pa : R) : R :=
  3.05 * 0.001 * (5733 - (6.99 * (M - W)) - pa * 1000).

Definition hl2 (M W : R) : R :=
  0.42 * ((M - W) - 58.15).

Definition hl3 (M pa : R) : R :=
  1.7 * 0.00001 * M * (5867 - pa * 1000).

Definition hl4 (M ta : R) : R :=
  0.0014 * M * (34 - ta).

Definition hl5 (fcl hc tcl ta : R) : R :=
  fcl * hc * (tcl - ta).

Definition hl6 (fcl tcl tr : R) : R :=
  fcl * 3.96e-8 * ((tcl + 273) ^ 4 - (tr + 273) ^ 4).

(** Line 41. *)
Definition pmv (M W hl1 hl2 hl3 hl4 hl5 hl6 : R) : R :=
  (0.303 * math_exp (-0.036 * M) + 0.028)
  * ((M - W) - hl1 - hl2 - hl3 - hl4 - hl5 - hl6).

(** The local variables of [calculate_pmv] at its [return]. *)
Module Locals.
Record t : Type := mk {
  M : R; W : R; Icl : R; ta : R; tr : R; pa : R;
  hc : R; fcl : R; tcl : R;
  hl1 : R; hl2 : R; hl3 : R; hl4 : R; hl5 : R; hl6 : R;
  pmv : R
}.
End Locals.

(** The whole body, in the order of the source: the run either raises or
    reaches [return pmv] with all its locals bound. *)
Definition calculate_pmv_locals
    (temperature_c humidity wind_speed met clo : R) (tr pa : option R)
  : result Locals.t :=
  let M := met * 58.15 in
  let W := 0 in
  let Icl := clo * 0.155 in
  let ta := temperature_c in
  let tr := match tr with None => ta | Some tr => tr end in
  pa <- vapour_pressure ta humidity pa ;;
  hc <- hc ta tr wind_speed ;;
  let fcl := fcl clo in
  tcl <- tcl ta Icl ;;
  let hl1 := hl1 M W pa in
  let hl2 := hl2 M W in
  let hl3 := hl3 M pa in
  let hl4 := hl4 M ta in
  let hl5 := hl5 fcl hc tcl ta in
  let hl6 := hl6 fcl tcl tr in
  let pmv := pmv M W hl1 hl2 hl3 hl4 hl5 hl6 in
  Ok (Locals.mk M W Icl ta tr pa hc fcl tcl hl1 hl2 hl3 hl4 hl5 hl6 pmv).

(** [calculate_pmv(temperature_c, humidity, wind_speed, met, clo, tr, pa)]. *)
Definition calculate_pmv
    (temperature_c humidity wind_speed met clo : R) (tr pa : option R)
  : result R :=
  l <- calculate_pmv_locals temperature_c humidity wind_speed met clo tr pa ;;
  Ok (Locals.pmv l).

(** The defaults of the signature: [met=1.2, clo=0.5, tr=None, pa=None]. *)
Definition calculate_pmv_default (temperature_c humidity wind_speed : R)
  : result R :=
  calculate_pmv temperature_c humidity wind_speed 1.2 0.5 None None.

(** ** The closed form of the specification (section 4.1, steps 1-7)

    A second definition that follows the words of the specification: total
    real-valued formulas, with the documented defaults for [tr] and [pa].
    It is compared with the code below (claim C1). *)
Module Spec.

Definition M (met : R) : R := met * 58.15.
Definition W : R := 0.
Definition Icl (clo : R) : R := clo * 0.155.

Definition tr_default (ta : R) (tr : option R) : R :=
  match tr with Some t => t | None => ta end.

Definition pws (ta : R) : R := 0.6108 * exp (17.27 * ta / (ta + 237.3)).

Definition pa_default (ta rh : R) (pa : option R) : R :=
  match pa with Some p => p | None => (rh / 100) * pws ta end.

Definition hc (ta tr v : R) : R :=
  if Rgt_dec (Rabs (ta - tr)) 0.1
  then 2.38 * Rpower (Rabs (ta - tr)) 0.25
  else 12.1 * sqrt v.

Definition fcl (clo : R) : R :=
  if Rgt_dec clo 0.5 then 1.05 + 0.1 * clo else 1 + 0.2 * clo.

Definition tcl (ta Icl : R) : R :=
  ta + (35.5 - ta) / (3.5 * (6.45 * Icl + 0.1)).

Definition hl1 (M pa : R) : R := 0.00305 * (5733 - 6.99 * (M - W) - pa * 1000).
Definition hl2 (M : R) : R := 0.42 * ((M - W) - 58.15).
Definition hl3 (M pa : R) : R := 0.000017 * M * (5867 - pa * 1000).
Definition hl4 (M ta : R) : R := 0.0014 * M * (34 - ta).
Definition hl5 (fcl hc tcl ta : R) : R := fcl * hc * (tcl - ta).
Definition hl6 (fcl tcl tr : R) : R :=
  fcl * 3.96e-8 * ((tcl + 273) ^ 4 - (tr + 273) ^ 4).

Definition evaluate_pmv (ta rh v met clo : R) (tr pa : option R) : R :=
  let M := M met in
  let Icl := Icl clo in
  let tr := tr_default ta tr in
  let pa := pa_default ta rh pa in
  let hc := hc ta tr v in
  let fcl := fcl clo in
  let tcl := tcl ta Icl in
  (0.303 * exp (-0.036 * M) + 0.028)
  * ((M - W) - hl1 M pa - hl2 M - hl3 M pa - hl4 M ta
     - hl5 fcl hc tcl ta - hl6 fcl tcl tr).

(** No intermediate operation leaves its real-valued domain: the divisor of
    the saturation-pressure formula (used when [pa] is omitted) and the
    divisor of [tcl] are non-zero, and the radicand of the forced-convection
    branch is non-negative.  (The base of [^0.25] is an absolute value.) *)
Definition in_domain (ta v clo : R) (tr pa : option R) : Prop :=
  (pa = None -> ta + 237.3 <> 0)
  /\ (Rabs (ta - tr_default ta tr) <= 0.1 -> 0 <= v)
  /\ 3.5 * (6.45 * Icl clo + 0.1) <> 0.

End Spec.

(** Physically valid inputs (section 3 of the specification): air temperature
    between 10 and 40 degrees Celsius, relative humidity in percent, a
    non-negative air speed, a positive metabolic rate and a non-negative
    clothing insulation.  [tr] and [pa] are any reals, or omitted. *)
Definition physically_valid (ta rh v met clo : R) : Prop :=
  10 <= ta <= 40 /\ 0 <= rh <= 100 /\ 0 <= v /\ 0 < met /\ 0 <= clo.

(** The ranges of section 3 of the specification ([met] up to 4, [clo] up to
    2), with an air speed up to 100 m/s, a radiant temperature between -100
    and 100 degrees and a vapour pressure up to 100 kPa when they are
    given. *)
Definition typical_range (ta rh v met clo : R) (tr pa : option R) : Prop :=
  physically_valid ta rh v met clo
  /\ v <= 100 /\ met <= 4 /\ clo <= 2
  /\ match tr with Some t => -100 <= t <= 100 | None => True end
  /\ match pa with Some p => 0 <= p <= 100 | None => True end.

(** The thermal load of a run: metabolic heat minus the six losses. *)
Definition thermal_load (l : Locals.t) : R :=
  (Locals.M l - Locals.W l) - Locals.hl1 l - Locals.hl2 l - Locals.hl3 l
  - Locals.hl4 l - Locals.hl5 l - Locals.hl6 l.

(** ** The same body over the range of binary64

    A binary64 float is a real number within the range of the format, an
    infinity or a NaN.  The arithmetic operators round a result whose
    magnitude reaches [overflow_threshold] to an infinity and propagate
    infinities and NaN by the IEEE 754 rules; [/] raises
    [ZeroDivisionError] on a zero divisor; [math.exp] and [**] raise
    [OverflowError] where the result of a finite argument leaves the range;
    [math.sqrt] raises [ValueError] on a negative argument.  Within the
    range a result is the exact real number: the rounding of the
    significand, underflow and the sign of zero are not modelled. *)

Inductive float : Set :=
| Fin (r : R)
| PInf
| NInf
| NaN.

Declare Scope float_scope.
Delimit Scope float_scope with float.
Bind Scope float_scope with float.

(** A float literal of the source is the real number it is written as. *)
Coercion Fin : R >-> float.

Module Binary64.

(** The least magnitude that rounds to an infinity: the largest finite
    float, [2^1024 - 2^971], plus half a unit in its last place. *)
Definition overflow_threshold : R := IZR (2 ^ 1024 - 2 ^ 970).

Definition round (r : R) : float :=
  if Rle_dec overflow_threshold r then PInf
  else if Rle_dec r (- overflow_threshold) then NInf
  else Fin r.

(** [s * inf] for a finite [s]: an infinity of the sign of [s], NaN for
    [s = 0]. *)
Definition inf_times (s : R) : float :=
  if Rlt_dec 0 s then PInf else if Rlt_dec s 0 then NInf else NaN.

Definition fneg (x : float) : float :=
  match x with
  | Fin a => Fin (- a)
  | PInf => NInf
  | NInf => PInf
  | NaN => NaN
  end.

(** [x + y]. *)
Definition fadd (x y : float) : float :=
  match x, y with
  | Fin a, Fin b => round (a + b)
  | NaN, _ | _, NaN => NaN
  | PInf, NInf | NInf, PInf => NaN
  | PInf, _ | _, PInf => PInf
  | NInf, _ | _, NInf => NInf
  end.

(** [x - y]. *)
Definition fsub (x y : float) : float :=
  match x, y with
  | Fin a, Fin b => round (a - b)
  | _, _ => fadd x (fneg y)
  end.

(** [x * y]. *)
Definition fmul (x y : float) : float :=
  match x, y with
  | Fin a, Fin b => round (a * b)
  | NaN, _ | _, NaN => NaN
  | Fin a, PInf | PInf, Fin a => inf_times a
  | Fin a, NInf | NInf, Fin a => inf_times (- a)
  | PInf, PInf | NInf, NInf => PInf
  | PInf, NInf | NInf, PInf => NInf
  end.

(** [x / y]: [ZeroDivisionError] when the divisor is zero, whatever the
    dividend; an overflowing quotient is an infinity. *)
Definition truediv (x y : float) : result float :=
  match y with
  | Fin b =>
      if Req_dec_T b 0 then Raise ZeroDivisionError
      else Ok match x with
              | Fin a => round (a / b)
              | PInf => inf_times b
              | NInf => inf_times (- b)
              | NaN => NaN
              end
  | PInf | NInf => Ok match x with Fin _ => Fin 0 | _ => NaN end
  | NaN => Ok NaN
  end.

(** [abs(x)]. *)
Definition fabs (x : float) : float :=
  match x with
  | Fin a => Fin (Rabs a)
  | PInf | NInf => PInf
  | NaN => NaN
  end.

(** [x > y]: false as soon as one side is NaN. *)
Definition fgt (x y : float) : bool :=
  match x, y with
  | Fin a, Fin b => Rgtb a b
  | NaN, _ | _, NaN => false
  | PInf, PInf | NInf, _ | _, PInf => false
  | PInf, _ | _, NInf => true
  end.

Infix "+" := fadd : float_scope.
Infix "-" := fsub : float_scope.
Infix "*" := fmul : float_scope.
Infix "//" := truediv (at level 40, left associativity) : float_scope.
Infix ">?" := fgt (at level 70, no associativity) : float_scope.

(** [math.sqrt(x)]. *)
Definition math_sqrt (x : float) : result float :=
  match x with
  | Fin a => if Rlt_dec a 0 then Raise ValueError else Ok (Fin (sqrt a))
  | PInf => Ok PInf
  | NInf => Raise ValueError
  | NaN => Ok NaN
  end.

(** [math.exp(x)]: [OverflowError] (math range error) when the result of a
    finite argument leaves the range. *)
Definition math_exp (x : float) : result float :=
  match x with
  | Fin a =>
      if Rle_dec overflow_threshold (exp a) then Raise OverflowError
      else Ok (Fin (exp a))
  | PInf => Ok PInf
  | NInf => Ok (Fin 0)
  | NaN => Ok NaN
  end.

(** [x ** 0.25], for the base [abs(...)] of line 30 (see [float_pow]). *)
Definition pow_quarter (x : float) : result float :=
  match x with
  | Fin a =>
      if Rle_dec overflow_threshold (float_pow a 0.25) then Raise OverflowError
      else Ok (Fin (float_pow a 0.25))
  | PInf | NInf => Ok PInf
  | NaN => Ok NaN
  end.

(** [x ** 4]: [OverflowError] (numerical result out of range) when the
    fourth power of a finite base leaves the range. *)
Definition pow_4 (x : float) : result float :=
  match x with
  | Fin a =>
      if Rle_dec overflow_threshold (a ^ 4) then Raise OverflowError
      else Ok (Fin (a ^ 4))
  | PInf | NInf => Ok PInf
  | NaN => Ok NaN
  end.

#[local] Open Scope float_scope.

(** Line 27. *)
Definition pws (ta : float) : result float :=
  q <- (17.27 * ta) // (ta + 237.3) ;;
  e <- math_exp q ;;
  Ok (0.6108 * e).

(** Lines 25-28. *)
Definition vapour_pressure (ta humidity : float) (pa : option float)
  : result float :=
  match pa with
  | None =>
      pws <- pws ta ;;
      h <- humidity // 100.0 ;;
      Ok (h * pws)
  | Some pa => Ok pa
  end.

(** Line 30. *)
Definition hc (ta tr wind_speed : float) : result float :=
  if fabs (ta - tr) >? 0.1
  then p <- pow_quarter (fabs (ta - tr)) ;; Ok (2.38 * p)
  else s <- math_sqrt wind_speed ;; Ok (12.1 * s).

(** Line 32. *)
Definition fcl (clo : float) : float :=
  if clo >? 0.5 then 1.05 + 0.1 * clo else 1 + 0.2 * clo.

(** Line 34. *)
Definition tcl (ta Icl : float) : result float :=
  d <- (35.5 - ta) // (3.5 * (6.45 * Icl + 0.1)) ;;
  Ok (ta + d).

(** Lines 35-40. *)
Definition hl1 (M W pa : float) : float :=
  3.05 * 0.001 * (5733 - (6.99 * (M - W)) - pa * 1000).

Definition hl2 (M W : float) : float :=
  0.42 * ((M - W) - 58.15).

Definition hl3 (M pa : float) : float :=
  1.7 * 0.00001 * M * (5867 - pa * 1000).

Definition hl4 (M ta : float) : float :=
  0.0014 * M * (34 - ta).

Definition hl5 (fcl hc tcl ta : float) : float :=
  fcl * hc * (tcl - ta).

Definition hl6 (fcl tcl tr : float) : result float :=
  a <- pow_4 (tcl + 273) ;;
  b <- pow_4 (tr + 273) ;;
  Ok (fcl * 3.96e-8 * (a - b)).

(** Line 41. *)
Definition pmv (M W hl1 hl2 hl3 hl4 hl5 hl6 : float) : result float :=
  e <- math_exp (-0.036 * M) ;;
  Ok ((0.303 * e + 0.028)
      * ((M - W) - hl1 - hl2 - hl3 - hl4 - hl5 - hl6)).

(** The whole body, in the order of the source. *)
Definition calculate_pmv
    (temperature_c humidity wind_speed met clo : float) (tr pa : option float)
  : result float :=
  let M := met * 58.15 in
  let W : float := 0 in
  let Icl := clo * 0.155 in
  let ta := temperature_c in
  let tr := match tr with None => ta | Some tr => tr end in
  pa <- vapour_pressure ta humidity pa ;;
  hc <- hc ta tr wind_speed ;;
  let fcl := fcl clo in
  tcl <- tcl ta Icl ;;
  let hl1 := hl1 M W pa in
  let hl2 := hl2 M W in
  let hl3 := hl3 M pa in
  let hl4 := hl4 M ta in
  let hl5 := hl5 fcl hc tcl ta in
  hl6 <- hl6 fcl tcl tr ;;
  pmv M W hl1 hl2 hl3 hl4 hl5 hl6.

End Binary64.

(** An outcome of the exact embedding, read as an outcome over floats. *)
Definition lift (c : result R) : result float :=
  match c with
  | Ok r => Ok (Fin r)
  | Raise e => Raise e
  end.

(** [x] has at most [n] decimal digits before the point. *)
Definition mag (n : nat) (x : R) : Prop := Rabs x <= 10 ^ n.

(** Inputs of moderate magnitude: every argument but [met] within a million
    of zero; when [pa] is omitted, an air temperature at the pole -237.3 of
    the saturation-pressure formula or not below -237; a divisor of line 34
    that is zero or not within a thousandth of zero. *)
Definition moderate_setting (ta rh v clo : R) (tr pa : option R) : Prop :=
  Rabs ta <= 1e6 /\ Rabs rh <= 1e6 /\ Rabs v <= 1e6 /\ Rabs clo <= 1e6
  /\ match tr with Some t => Rabs t <= 1e6 | None => True end
  /\ match pa with
     | Some p => Rabs p <= 1e6
     | None => ta = -237.3 \/ -237 <= ta
     end
  /\ (6.45 * (clo * 0.155) + 0.1 = 0
      \/ 0.001 <= Rabs (6.45 * (clo * 0.155) + 0.1)).

(** ... and a metabolic rate between -100 and a million met. *)
Definition moderate (ta rh v met clo : R) (tr pa : option R) : Prop :=
  moderate_setting ta rh v clo tr pa /\ -100 <= met <= 1e6.

(** * Properties *)

(** ** The primitives *)

Lemma Rgtb_true (x y : R) : x > y -> (x >? y) = true.
Proof. intros H. unfold Rgtb. destruct (Rgt_dec x y); [reflexivity | contradiction]. Qed.

Lemma Rgtb_false (x y : R) : x <= y -> (x >? y) = false.
Proof. intros H. unfold Rgtb. destruct (Rgt_dec x y); [lra | reflexivity]. Qed.

Lemma truediv_ok (x y : R) : y <> 0 -> x // y = Ok (x / y).
Proof. intros H. unfold truediv. destruct (Req_dec_T y 0); [contradiction | reflexivity]. Qed.

Lemma truediv_zero (x y : R) : y = 0 -> x // y = Raise ZeroDivisionError.
Proof. intros H. unfold truediv. destruct (Req_dec_T y 0); [reflexivity | contradiction]. Qed.

Lemma math_sqrt_ok (x : R) : 0 <= x -> math_sqrt x = Ok (sqrt x).
Proof. intros H. unfold math_sqrt. destruct (Rlt_dec x 0); [lra | reflexivity]. Qed.

Lemma math_sqrt_neg (x : R) : x < 0 -> math_sqrt x = Raise ValueError.
Proof. intros H. unfold math_sqrt. destruct (Rlt_dec x 0); [reflexivity | contradiction]. Qed.

Lemma float_pow_pos (x y : R) : 0 < x -> float_pow x y = Rpower x y.
Proof. intros H. unfold float_pow. destruct (Req_dec_T x 0); [lra | reflexivity]. Qed.

(** The base handed to [** 0.25] on line 30 is never negative. *)
Lemma float_pow_base_nonneg (ta tr : R) : 0 <= Rabs (ta - tr).
Proof. apply Rabs_pos. Qed.

Lemma hundred_nonzero : 100.0 <> 0.
Proof. lra. Qed.

Lemma bind_Ok_inv {A B : Type} (c : result A) (k : A -> result B) (b : B) :
  (x <- c ;; k x) = Ok b -> exists a, c = Ok a /\ k a = Ok b.
Proof. destruct c as [a | e]; simpl; [eauto | discriminate]. Qed.

Lemma bind_Raise_inv {A B : Type} (c : result A) (k : A -> result B) (e : exn) :
  (x <- c ;; k x) = Raise e ->
  c = Raise e \/ exists a, c = Ok a /\ k a = Raise e.
Proof. destruct c as [a | e']; simpl; [eauto | intros [= ->]; auto]. Qed.

(** ** The stages: when each one returns, and what *)

Lemma pws_ok (ta : R) :
  ta + 237.3 <> 0 -> pws ta = Ok (0.6108 * exp (17.27 * ta / (ta + 237.3))).
Proof. intros H. unfold pws. rewrite truediv_ok by assumption. reflexivity. Qed.

Lemma pws_zero (ta : R) : ta + 237.3 = 0 -> pws ta = Raise ZeroDivisionError.
Proof. intros H. unfold pws. rewrite truediv_zero by assumption. reflexivity. Qed.

Lemma vapour_pressure_given (ta humidity p : R) :
  vapour_pressure ta humidity (Some p) = Ok p.
Proof. reflexivity. Qed.

Lemma vapour_pressure_derived (ta humidity : R) :
  ta + 237.3 <> 0 ->
  vapour_pressure ta humidity None
  = Ok (humidity / 100 * (0.6108 * exp (17.27 * ta / (ta + 237.3)))).
Proof.
  intros H. unfold vapour_pressure. rewrite pws_ok by assumption. simpl.
  rewrite truediv_ok by apply hundred_nonzero. simpl.
  f_equal. lra.
Qed.

Lemma vapour_pressure_zero (ta humidity : R) :
  ta + 237.3 = 0 -> vapour_pressure ta humidity None = Raise ZeroDivisionError.
Proof. intros H. unfold vapour_pressure. rewrite pws_zero by assumption. reflexivity. Qed.

Lemma hc_natural (ta tr v : R) :
  Rabs (ta - tr) > 0.1 -> hc ta tr v = Ok (2.38 * Rpower (Rabs (ta - tr)) 0.25).
Proof.
  intros H. unfold hc. rewrite Rgtb_true by assumption.
  rewrite float_pow_pos by lra. reflexivity.
Qed.

Lemma hc_forced (ta tr v : R) :
  Rabs (ta - tr) <= 0.1 -> 0 <= v -> hc ta tr v = Ok (12.1 * sqrt v).
Proof.
  intros H Hv. unfold hc. rewrite Rgtb_false by assumption.
  rewrite math_sqrt_ok by assumption. reflexivity.
Qed.

Lemma hc_forced_neg (ta tr v : R) :
  Rabs (ta - tr) <= 0.1 -> v < 0 -> hc ta tr v = Raise ValueError.
Proof.
  intros H Hv. unfold hc. rewrite Rgtb_false by assumption.
  rewrite math_sqrt_neg by assumption. reflexivity.
Qed.

Lemma fcl_heavy (clo : R) : clo > 0.5 -> fcl clo = 1.05 + 0.1 * clo.
Proof. intros H. unfold fcl. rewrite Rgtb_true by assumption. reflexivity. Qed.

Lemma fcl_light (clo : R) : clo <= 0.5 -> fcl clo = 1 + 0.2 * clo.
Proof. intros H. unfold fcl. rewrite Rgtb_false by assumption. reflexivity. Qed.

Lemma tcl_ok (ta Icl : R) :
  3.5 * (6.45 * Icl + 0.1) <> 0 ->
  tcl ta Icl = Ok (ta + (35.5 - ta) / (3.5 * (6.45 * Icl + 0.1))).
Proof. intros H. unfold tcl. rewrite truediv_ok by assumption. reflexivity. Qed.

Lemma tcl_zero (ta Icl : R) :
  3.5 * (6.45 * Icl + 0.1) = 0 -> tcl ta Icl = Raise ZeroDivisionError.
Proof. intros H. unfold tcl. rewrite truediv_zero by assumption. reflexivity. Qed.

(** *** The stages on concrete inputs *)

Example fcl_at_threshold : fcl 0.5 = 1.1.
Proof. rewrite fcl_light; lra. Qed.

Example fcl_above_threshold : fcl 0.6 = 1.11.
Proof. rewrite fcl_heavy; lra. Qed.

Example hc_still_air : hc 25 25 0 = Ok 0.
Proof.
  rewrite hc_forced.
  - rewrite sqrt_0. f_equal. lra.
  - replace (25 - 25) with 0 by lra. rewrite Rabs_R0. lra.
  - lra.
Qed.

Example hc_quarter : hc 25 25 0.25 = Ok 6.05.
Proof.
  rewrite hc_forced.
  - replace 0.25 with (0.5 * 0.5) by lra.
    rewrite sqrt_square by lra. f_equal. lra.
  - replace (25 - 25) with 0 by lra. rewrite Rabs_R0. lra.
  - lra.
Qed.

Example hc_radiant_asymmetry (v : R) :
  hc 25 26 v = Ok 2.38.
Proof.
  rewrite hc_natural.
  - replace (25 - 26) with (- (1)) by lra.
    rewrite Rabs_Ropp, Rabs_R1. unfold Rpower.
    rewrite ln_1, Rmult_0_r, exp_0. f_equal. lra.
  - replace (25 - 26) with (- (1)) by lra.
    rewrite Rabs_Ropp, Rabs_R1. lra.
Qed.

Example tcl_reference : tcl 25 (0.5 * 0.155) = Ok (25 + 24000 / 4799).
Proof. rewrite tcl_ok by (intros H; lra). f_equal. lra. Qed.

Example hl2_below_one_met : hl2 (0.8 * 58.15) 0 = -4.8846.
Proof. unfold hl2. lra. Qed.

Example pws_at_zero : pws 0 = Ok 0.6108.
Proof.
  rewrite pws_ok by (intros H; lra).
  replace (17.27 * 0 / (0 + 237.3)) with 0 by lra.
  rewrite exp_0. f_equal. lra.
Qed.

(** ** The run as a whole *)

(** The value of [pa] after lines 25-28, when the derivation is defined. *)
Lemma vapour_pressure_spec (ta rh : R) (pa : option R) :
  (pa = None -> ta + 237.3 <> 0) ->
  vapour_pressure ta rh pa = Ok (Spec.pa_default ta rh pa).
Proof.
  intros H. destruct pa as [p |].
  - reflexivity.
  - rewrite vapour_pressure_derived by (apply H; reflexivity).
    reflexivity.
Qed.

(** The value of [hc] after line 30, when the radicand is in the domain of
    the square root. *)
Lemma hc_spec (ta tr v : R) :
  (Rabs (ta - tr) <= 0.1 -> 0 <= v) ->
  hc ta tr v = Ok (Spec.hc ta tr v).
Proof.
  intros H. unfold Spec.hc.
  destruct (Rgt_dec (Rabs (ta - tr)) 0.1) as [Hgt | Hle].
  - apply hc_natural; assumption.
  - apply hc_forced; [lra | apply H; lra].
Qed.

Lemma fcl_spec (clo : R) : fcl clo = Spec.fcl clo.
Proof.
  unfold Spec.fcl. destruct (Rgt_dec clo 0.5).
  - apply fcl_heavy; assumption.
  - apply fcl_light; lra.
Qed.

(** A run that raises nothing binds every local to the value of its
    formula. *)
Lemma calculate_pmv_locals_ok (ta rh v met clo : R) (tr pa : option R) :
  Spec.in_domain ta v clo tr pa ->
  exists l,
    calculate_pmv_locals ta rh v met clo tr pa = Ok l
    /\ Locals.M l = met * 58.15
    /\ Locals.W l = 0
    /\ Locals.Icl l = clo * 0.155
    /\ Locals.ta l = ta
    /\ Locals.tr l = Spec.tr_default ta tr
    /\ Locals.pa l = Spec.pa_default ta rh pa
    /\ Locals.hc l = Spec.hc ta (Spec.tr_default ta tr) v
    /\ Locals.fcl l = Spec.fcl clo
    /\ Locals.tcl l = Spec.tcl ta (clo * 0.155)
    /\ Locals.pmv l = Spec.evaluate_pmv ta rh v met clo tr pa.
Proof.
  intros (Hpa & Hv & Hd).
  unfold calculate_pmv_locals.
  rewrite (vapour_pressure_spec ta rh pa Hpa). simpl bind.
  replace (match tr with None => ta | Some t => t end)
    with (Spec.tr_default ta tr) by (destruct tr; reflexivity).
  rewrite (hc_spec _ _ _ Hv). simpl bind.
  rewrite (tcl_ok ta (clo * 0.155) Hd). simpl bind.
  eexists. split; [reflexivity |]. simpl.
  repeat (split; [first [reflexivity | apply fcl_spec] |]).
  unfold Spec.evaluate_pmv, pmv, math_exp, hl1, hl2, hl3, hl4, hl5, hl6.
  unfold Spec.hl1, Spec.hl2, Spec.hl3, Spec.hl4, Spec.hl5, Spec.hl6.
  unfold Spec.M, Spec.W, Spec.Icl, Spec.tcl.
  rewrite fcl_spec.
  replace (3.05 * 0.001) with 0.00305 by lra.
  replace (1.7 * 0.00001) with 0.000017 by lra.
  reflexivity.
Qed.

(** A call that raises nothing returns the value of the closed form. *)
Lemma calculate_pmv_ok (ta rh v met clo : R) (tr pa : option R) :
  Spec.in_domain ta v clo tr pa ->
  calculate_pmv ta rh v met clo tr pa
  = Ok (Spec.evaluate_pmv ta rh v met clo tr pa).
Proof.
  intros Hdom.
  destruct (calculate_pmv_locals_ok ta rh v met clo tr pa Hdom)
    as (l & Hrun & _ & _ & _ & _ & _ & _ & _ & _ & _ & Hpmv).
  unfold calculate_pmv. rewrite Hrun. simpl. rewrite Hpmv. reflexivity.
Qed.


(** The reference point of the sample program ([ta=25, rh=50, v=0.1] and the
    defaults) is in the domain. *)
Lemma reference_point_in_domain : Spec.in_domain 25 0.1 0.5 None None.
Proof.
  unfold Spec.in_domain, Spec.Icl. repeat split; intros; lra.
Qed.


(** A run that returns went through the three fallible stages, and its
    locals are the values computed from their results. *)
Lemma calculate_pmv_locals_inv (ta rh v met clo : R) (tr pa : option R)
    (l : Locals.t) :
  calculate_pmv_locals ta rh v met clo tr pa = Ok l ->
  exists pa' hc' tcl',
    vapour_pressure ta rh pa = Ok pa'
    /\ hc ta (Spec.tr_default ta tr) v = Ok hc'
    /\ tcl ta (clo * 0.155) = Ok tcl'
    /\ l = Locals.mk (met * 58.15) 0 (clo * 0.155) ta (Spec.tr_default ta tr)
             pa' hc' (fcl clo) tcl'
             (hl1 (met * 58.15) 0 pa') (hl2 (met * 58.15) 0)
             (hl3 (met * 58.15) pa') (hl4 (met * 58.15) ta)
             (hl5 (fcl clo) hc' tcl' ta)
             (hl6 (fcl clo) tcl' (Spec.tr_default ta tr))
             (pmv (met * 58.15) 0
                (hl1 (met * 58.15) 0 pa') (hl2 (met * 58.15) 0)
                (hl3 (met * 58.15) pa') (hl4 (met * 58.15) ta)
                (hl5 (fcl clo) hc' tcl' ta)
                (hl6 (fcl clo) tcl' (Spec.tr_default ta tr))).
Proof.
  unfold calculate_pmv_locals.
  replace (match tr with None => ta | Some t => t end)
    with (Spec.tr_default ta tr) by (destruct tr; reflexivity).
  intros H.
  apply bind_Ok_inv in H. destruct H as (pa' & Hpa & H).
  apply bind_Ok_inv in H. destruct H as (hc' & Hhc & H).
  apply bind_Ok_inv in H. destruct H as (tcl' & Htcl & H).
  injection H as <-.
  exists pa', hc', tcl'. repeat split; assumption.
Qed.

(** The value returned is the [pmv] local of the run. *)
Lemma calculate_pmv_returns_local (ta rh v met clo : R) (tr pa : option R)
    (l : Locals.t) :
  calculate_pmv_locals ta rh v met clo tr pa = Ok l ->
  calculate_pmv ta rh v met clo tr pa = Ok (Locals.pmv l).
Proof. intros H. unfold calculate_pmv. rewrite H. reflexivity. Qed.

Lemma hc_Ok_inv (ta tr v h : R) :
  hc ta tr v = Ok h ->
  (Rabs (ta - tr) > 0.1 /\ h = 2.38 * Rpower (Rabs (ta - tr)) 0.25)
  \/ (Rabs (ta - tr) <= 0.1 /\ 0 <= v /\ h = 12.1 * sqrt v).
Proof.
  intros H.
  destruct (Rgt_dec (Rabs (ta - tr)) 0.1) as [Hgt | Hle].
  - left. rewrite hc_natural in H by assumption. injection H as <-. auto.
  - right. assert (Hle' : Rabs (ta - tr) <= 0.1) by lra.
    destruct (Rlt_dec v 0) as [Hneg | Hpos].
    + rewrite hc_forced_neg in H by assumption. discriminate.
    + rewrite hc_forced in H by lra. injection H as <-.
      repeat split; lra.
Qed.

(** ** Claims about the two piecewise branches *)

(** C2. In a run of [calculate_pmv], the convective heat-transfer
    coefficient [hc] is [2.38 * |ta - tr|^0.25] when [|ta - tr| > 0.1] and
    [12.1 * sqrt v] when [|ta - tr| <= 0.1]; in particular at exactly
    [|ta - tr| = 0.1] the forced-convection form is the one used.  This [hc]
    is the factor of the convective loss [hl5]. *)
Theorem hc_threshold (ta rh v met clo : R) (tr pa : option R) (l : Locals.t) :
  calculate_pmv_locals ta rh v met clo tr pa = Ok l ->
  (Rabs (ta - Locals.tr l) > 0.1 ->
     Locals.hc l = 2.38 * Rpower (Rabs (ta - Locals.tr l)) 0.25)
  /\ (Rabs (ta - Locals.tr l) <= 0.1 -> Locals.hc l = 12.1 * sqrt v)
  /\ (Rabs (ta - Locals.tr l) = 0.1 -> Locals.hc l = 12.1 * sqrt v)
  /\ Locals.tr l = Spec.tr_default ta tr
  /\ Locals.hl5 l = Locals.fcl l * Locals.hc l * (Locals.tcl l - ta).
Proof.
  intros Hrun.
  destruct (calculate_pmv_locals_inv _ _ _ _ _ _ _ _ Hrun)
    as (pa' & hc' & tcl' & _ & Hhc & _ & ->).
  simpl.
  apply hc_Ok_inv in Hhc.
  repeat split; try reflexivity; intros Hd;
    destruct Hhc as [(Hgt & ->) | (Hle & Hv & ->)];
    first [reflexivity | lra].
Qed.

Lemma hc_threshold_witness :
  exists l,
    calculate_pmv_locals 0.1 50 0.3 1.2 0.5 (Some 0) None = Ok l
    /\ Rabs (0.1 - Locals.tr l) = 0.1
    /\ Locals.hc l = 12.1 * sqrt 0.3.
Proof.
  assert (Hdom : Spec.in_domain 0.1 0.3 0.5 (Some 0) None).
  { unfold Spec.in_domain, Spec.Icl. repeat split; intros; lra. }
  destruct (calculate_pmv_locals_ok 0.1 50 0.3 1.2 0.5 (Some 0) None Hdom)
    as (l & Hrun & _).
  exists l.
  destruct (hc_threshold 0.1 50 0.3 1.2 0.5 (Some 0) None l Hrun)
    as (_ & _ & Hboundary & Htr & _).
  assert (Habs : Rabs (0.1 - Locals.tr l) = 0.1).
  { rewrite Htr. simpl. rewrite Rabs_pos_eq; lra. }
  repeat split; [exact Hrun | exact Habs | exact (Hboundary Habs)].
Defined.

(** C3. In a run of [calculate_pmv], the clothing area factor [fcl] is
    [1.05 + 0.1*clo] when [clo > 0.5] and [1 + 0.2*clo] when [clo <= 0.5];
    in particular at exactly [clo = 0.5] it is [1 + 0.2*clo].  This [fcl] is
    the factor of the losses [hl5] and [hl6]. *)
Theorem fcl_threshold (ta rh v met clo : R) (tr pa : option R) (l : Locals.t) :
  calculate_pmv_locals ta rh v met clo tr pa = Ok l ->
  (clo > 0.5 -> Locals.fcl l = 1.05 + 0.1 * clo)
  /\ (clo <= 0.5 -> Locals.fcl l = 1 + 0.2 * clo)
  /\ (clo = 0.5 -> Locals.fcl l = 1 + 0.2 * clo)
  /\ Locals.hl5 l = Locals.fcl l * Locals.hc l * (Locals.tcl l - ta)
  /\ Locals.hl6 l
     = Locals.fcl l * 3.96e-8
       * ((Locals.tcl l + 273) ^ 4 - (Locals.tr l + 273) ^ 4).
Proof.
  intros Hrun.
  destruct (calculate_pmv_locals_inv _ _ _ _ _ _ _ _ Hrun)
    as (pa' & hc' & tcl' & _ & _ & _ & ->).
  simpl.
  repeat split; try reflexivity; intros Hclo.
  - apply fcl_heavy; assumption.
  - apply fcl_light; assumption.
  - apply fcl_light; lra.
Qed.

Lemma fcl_threshold_witness :
  exists l,
    calculate_pmv_locals 25 50 0.1 1.2 0.5 None None = Ok l
    /\ Locals.fcl l = 1 + 0.2 * 0.5.
Proof.
  destruct (calculate_pmv_locals_ok 25 50 0.1 1.2 0.5 None None
              reference_point_in_domain) as (l & Hrun & _).
  exists l. split; [exact Hrun |].
  apply (fcl_threshold 25 50 0.1 1.2 0.5 None None l Hrun).
  reflexivity.
Defined.

(** ** Claims about the optional arguments *)

(** C6. Omitting [tr] gives exactly the result of passing [tr = ta], whether
    the call returns or raises; the locals of the two runs agree as well. *)
Theorem tr_omitted_is_ta (ta rh v met clo : R) (pa : option R) :
  calculate_pmv ta rh v met clo None pa
  = calculate_pmv ta rh v met clo (Some ta) pa
  /\ calculate_pmv_locals ta rh v met clo None pa
     = calculate_pmv_locals ta rh v met clo (Some ta) pa.
Proof.
  unfold calculate_pmv, calculate_pmv_locals.
  split; reflexivity.
Qed.


(** When the derivation of [pa] raises, so does the call. *)
Lemma pa_omitted_raises (ta rh v met clo : R) (tr : option R) :
  ta + 237.3 = 0 ->
  calculate_pmv ta rh v met clo tr None = Raise ZeroDivisionError.
Proof.
  intros H. unfold calculate_pmv, calculate_pmv_locals.
  rewrite vapour_pressure_zero by assumption. reflexivity.
Qed.

(** C7 as stated fails at [ta = -237.3]: with [rh = 0] the call with [pa]
    omitted raises [ZeroDivisionError] (line 27 divides by [ta + 237.3]),
    while the call with [pa = 0] returns. *)
Lemma pa_omitted_counterexample :
  calculate_pmv (-237.3) 0 0.1 1.2 0.5 None None = Raise ZeroDivisionError
  /\ calculate_pmv (-237.3) 0 0.1 1.2 0.5 None (Some 0)
     = Ok (Spec.evaluate_pmv (-237.3) 0 0.1 1.2 0.5 None (Some 0)).
Proof.
  split.
  - apply pa_omitted_raises. lra.
  - apply calculate_pmv_ok.
    unfold Spec.in_domain, Spec.Icl. repeat split; intros; try discriminate; lra.
Qed.

(** C10. When [pa] is given, the result (and every local of the run) does
    not depend on [humidity]: two calls that differ in [humidity] only
    return, or raise, the same. *)
Theorem pa_given_ignores_humidity (ta rh1 rh2 v met clo p : R) (tr : option R) :
  calculate_pmv ta rh1 v met clo tr (Some p)
  = calculate_pmv ta rh2 v met clo tr (Some p)
  /\ calculate_pmv_locals ta rh1 v met clo tr (Some p)
     = calculate_pmv_locals ta rh2 v met clo tr (Some p).
Proof.
  unfold calculate_pmv, calculate_pmv_locals.
  rewrite (vapour_pressure_given ta rh1 p), (vapour_pressure_given ta rh2 p).
  split; reflexivity.
Qed.

(** The derived [pa] does depend on it: the independence is a property of
    the explicit-[pa] path only. *)
Lemma pa_derived_depends_on_humidity (ta rh1 rh2 p1 p2 : R) :
  vapour_pressure ta rh1 None = Ok p1 ->
  vapour_pressure ta rh2 None = Ok p2 ->
  rh1 < rh2 -> p1 < p2.
Proof.
  intros H1 H2 Hlt.
  destruct (Req_dec_T (ta + 237.3) 0) as [Hz | Hnz].
  - rewrite vapour_pressure_zero in H1 by assumption. discriminate.
  - rewrite vapour_pressure_derived in H1, H2 by assumption.
    injection H1 as <-. injection H2 as <-.
    pose proof (exp_pos (17.27 * ta / (ta + 237.3))) as He.
    apply Rmult_lt_compat_r; [lra | lra].
Qed.

(** ** Claims about the heat balance *)

(** C8. The term [hl2] is [0.42 * ((M - W) - 58.15)] with no clamping: when
    [met < 1] (so [M - W < 58.15]) it is negative, and it is this signed
    value that the final expression subtracts. *)
Theorem hl2_unclamped (ta rh v met clo : R) (tr pa : option R) (l : Locals.t) :
  calculate_pmv_locals ta rh v met clo tr pa = Ok l ->
  Locals.hl2 l = 0.42 * ((Locals.M l - Locals.W l) - 58.15)
  /\ Locals.M l - Locals.W l = met * 58.15
  /\ (met < 1 -> Locals.M l - Locals.W l < 58.15 /\ Locals.hl2 l < 0)
  /\ Locals.pmv l
     = (0.303 * exp (-0.036 * Locals.M l) + 0.028)
       * ((Locals.M l - Locals.W l) - Locals.hl1 l - Locals.hl2 l
          - Locals.hl3 l - Locals.hl4 l - Locals.hl5 l - Locals.hl6 l)
  /\ calculate_pmv ta rh v met clo tr pa = Ok (Locals.pmv l).
Proof.
  intros Hrun.
  pose proof (calculate_pmv_returns_local _ _ _ _ _ _ _ _ Hrun) as Hret.
  destruct (calculate_pmv_locals_inv _ _ _ _ _ _ _ _ Hrun)
    as (pa' & hc' & tcl' & _ & _ & _ & ->).
  simpl in *. unfold hl2.
  repeat split; try reflexivity; try assumption; try lra.
Qed.

Lemma hl2_unclamped_witness :
  exists l,
    calculate_pmv_locals 25 50 0.1 0.8 0.5 None None = Ok l
    /\ Locals.hl2 l < 0.
Proof.
  destruct (calculate_pmv_locals_ok 25 50 0.1 0.8 0.5 None None
              reference_point_in_domain) as (l & Hrun & _).
  exists l. split; [exact Hrun |].
  apply (hl2_unclamped 25 50 0.1 0.8 0.5 None None l Hrun).
  lra.
Defined.

(** ** Domain and magnitude on physically valid inputs *)

Lemma physically_valid_in_domain (ta rh v met clo : R) (tr pa : option R) :
  physically_valid ta rh v met clo -> Spec.in_domain ta v clo tr pa.
Proof.
  intros (Hta & Hrh & Hv & Hmet & Hclo).
  unfold Spec.in_domain, Spec.Icl. repeat split; intros; lra.
Qed.

(** The multiplier of the thermal load is positive. *)
Lemma sensitivity_pos (M : R) : 0.028 < 0.303 * exp (-0.036 * M) + 0.028.
Proof. pose proof (exp_pos (-0.036 * M)). lra. Qed.

(** A hot, humid, still room with heavy clothing and high activity: the
    result lies above [+3]. *)
Lemma evaluate_pmv_hot_above_scale :
  3 < Spec.evaluate_pmv 40 100 0 4 2 None (Some 7).
Proof.
  unfold Spec.evaluate_pmv, Spec.tr_default, Spec.pa_default.
  unfold Spec.hc, Spec.fcl.
  destruct (Rgt_dec (Rabs (40 - 40)) 0.1) as [Habs | _].
  { replace (40 - 40) with 0 in Habs by lra. rewrite Rabs_R0 in Habs. lra. }
  destruct (Rgt_dec 2 0.5) as [_ | Hclo]; [| lra].
  rewrite sqrt_0.
  unfold Spec.hl1, Spec.hl2, Spec.hl3, Spec.hl4, Spec.hl5, Spec.hl6.
  unfold Spec.M, Spec.W, Spec.Icl, Spec.tcl.
  pose proof (sensitivity_pos (4 * 58.15)) as Hk.
  set (k := 0.303 * exp (-0.036 * (4 * 58.15)) + 0.028) in *.
  match goal with |- 3 < k * ?L => assert (HL : 108 < L) by lra;
    set (load := L) in * end.
  clearbody k load.
  apply Rlt_trans with (0.028 * 108); [lra |].
  apply Rmult_gt_0_lt_compat; lra.
Qed.

(** The clothing surface is warmer than the air exactly below 35.5 degrees
    (for non-negative clothing insulation). *)
Lemma tcl_excess (ta clo : R) :
  0 <= clo ->
  Spec.tcl ta (clo * 0.155) - ta
  = (35.5 - ta) / (3.5 * (6.45 * (clo * 0.155) + 0.1))
  /\ 0 < 3.5 * (6.45 * (clo * 0.155) + 0.1).
Proof. intros Hclo. unfold Spec.tcl. split; lra. Qed.

Lemma fcl_pos (clo : R) : 0 <= clo -> 0 < Spec.fcl clo.
Proof. intros H. unfold Spec.fcl. destruct (Rgt_dec clo 0.5); lra. Qed.

(** *** Magnitude of the result on typical inputs *)

Lemma Rdiv_le_upper (a b c : R) : 0 < b -> a <= c * b -> a / b <= c.
Proof.
  intros Hb H. apply (Rmult_le_reg_r b); [assumption |].
  replace (a / b * b) with a by (field; lra). assumption.
Qed.

Lemma Rdiv_le_lower (a b c : R) : 0 < b -> c * b <= a -> c <= a / b.
Proof.
  intros Hb H. apply (Rmult_le_reg_r b); [assumption |].
  replace (a / b * b) with a by (field; lra). assumption.
Qed.

Lemma exp_le_27 (x : R) : x <= 3 -> exp x <= 27.
Proof.
  intros Hx.
  apply Rle_trans with (exp 3).
  - destruct (Req_dec_T x 3) as [-> | Hne]; [lra |].
    left. apply exp_increasing. lra.
  - replace 3 with (1 + (1 + 1)) at 1 by lra.
    rewrite !exp_plus.
    pose proof exp_le_3 as H3. pose proof (exp_pos 1) as Hp.
    assert (exp 1 * exp 1 <= 9).
    { replace 9 with (3 * 3) by lra. apply Rmult_le_compat; lra. }
    replace 27 with (3 * 9) by lra.
    apply Rmult_le_compat; try lra.
    apply Rmult_le_pos; lra.
Qed.

Lemma pa_default_range (ta rh : R) (pa : option R) :
  10 <= ta <= 40 -> 0 <= rh <= 100 ->
  match pa with Some p => 0 <= p <= 100 | None => True end ->
  0 <= Spec.pa_default ta rh pa <= 100.
Proof.
  intros Hta Hrh Hpa. destruct pa as [p |]; simpl; [exact Hpa |].
  unfold Spec.pws.
  assert (Hq : 17.27 * ta / (ta + 237.3) <= 3).
  { apply Rdiv_le_upper; lra. }
  pose proof (exp_le_27 _ Hq) as He.
  pose proof (exp_pos (17.27 * ta / (ta + 237.3))) as Hp.
  set (e := exp (17.27 * ta / (ta + 237.3))) in *.
  assert (0 <= rh / 100 <= 1) by lra.
  assert (0 <= 0.6108 * e <= 16.5) by lra.
  split.
  - apply Rmult_le_pos; lra.
  - apply Rle_trans with (1 * 16.5); [| lra].
    apply Rmult_le_compat; lra.
Qed.

Lemma hc_range (ta tr v : R) :
  10 <= ta <= 40 -> -100 <= tr <= 100 -> 0 <= v <= 100 ->
  0 <= Spec.hc ta tr v <= 334.
Proof.
  intros Hta Htr Hv. unfold Spec.hc.
  destruct (Rgt_dec (Rabs (ta - tr)) 0.1) as [Hgt | Hle].
  - assert (Hd : Rabs (ta - tr) <= 140) by (apply Rabs_le; lra).
    set (d := Rabs (ta - tr)) in *.
    assert (Hp : 0 < Rpower d 0.25) by apply exp_pos.
    assert (Hu : Rpower d 0.25 <= 140).
    { apply Rle_trans with (Rpower 140 0.25).
      - apply Rle_Rpower_l; lra.
      - rewrite <- (Rpower_1 140) at 2 by lra.
        apply Rle_Rpower; lra. }
    lra.
  - assert (0 <= sqrt v) by apply sqrt_pos.
    assert (sqrt v <= 10).
    { replace 10 with (sqrt (10 * 10)) by (apply sqrt_square; lra).
      apply sqrt_le_1_alt. lra. }
    lra.
Qed.

Lemma tcl_range (ta clo : R) :
  10 <= ta <= 40 -> 0 <= clo <= 2 ->
  -13 <= Spec.tcl ta (clo * 0.155) - ta <= 73.
Proof.
  intros Hta Hclo.
  destruct (tcl_excess ta clo (proj1 Hclo)) as (-> & Hden).
  set (den := 3.5 * (6.45 * (clo * 0.155) + 0.1)) in *.
  assert (Hden' : 0.35 <= den <= 7.5) by (unfold den; lra).
  split.
  - apply Rdiv_le_lower; [assumption |].
    destruct (Rle_dec 35.5 ta); nra.
  - apply Rdiv_le_upper; [assumption |]. nra.
Qed.

Lemma pow4_range (x lo hi : R) : 0 <= lo -> lo <= x <= hi -> lo ^ 4 <= x ^ 4 <= hi ^ 4.
Proof. intros Hlo Hx. split; apply pow_incr; lra. Qed.

Lemma sensitivity_range (M : R) :
  0 <= M -> 0.028 < 0.303 * exp (-0.036 * M) + 0.028 <= 0.331.
Proof.
  intros HM. pose proof (exp_pos (-0.036 * M)) as Hp.
  assert (exp (-0.036 * M) <= 1).
  { rewrite <- exp_0. destruct (Req_dec_T M 0) as [-> | Hne].
    - right. f_equal. lra.
    - left. apply exp_increasing. lra. }
  lra.
Qed.

Lemma fcl_range (clo : R) : 0 <= clo <= 2 -> 1 <= Spec.fcl clo <= 1.25.
Proof. intros H. unfold Spec.fcl. destruct (Rgt_dec clo 0.5); lra. Qed.

Lemma tr_default_range (ta : R) (tr : option R) :
  10 <= ta <= 40 ->
  match tr with Some t => -100 <= t <= 100 | None => True end ->
  -100 <= Spec.tr_default ta tr <= 100.
Proof. intros Hta Htr. destruct tr; simpl; lra. Qed.

Lemma evaluate_pmv_bounded (ta rh v met clo : R) (tr pa : option R) :
  typical_range ta rh v met clo tr pa ->
  Rabs (Spec.evaluate_pmv ta rh v met clo tr pa) <= 11000.
Proof.
  intros ((Hta & Hrh & Hv & Hmet & Hclo) & Hv' & Hmet' & Hclo' & Htr & Hpa).
  pose proof (pa_default_range ta rh pa Hta Hrh Hpa) as Hp.
  pose proof (tr_default_range ta tr Hta Htr) as Ht.
  pose proof (hc_range ta (Spec.tr_default ta tr) v Hta Ht (conj Hv Hv')) as Hh.
  pose proof (fcl_range clo (conj Hclo Hclo')) as Hf.
  pose proof (tcl_range ta clo Hta (conj Hclo Hclo')) as Hd.
  assert (HM : 0 <= Spec.M met <= 232.6) by (unfold Spec.M; lra).
  pose proof (sensitivity_range (Spec.M met) (proj1 HM)) as Hk.
  unfold Spec.evaluate_pmv, Spec.Icl.
  set (M := Spec.M met) in *.
  set (p := Spec.pa_default ta rh pa) in *.
  set (t := Spec.tr_default ta tr) in *.
  set (h := Spec.hc ta t v) in *.
  set (f := Spec.fcl clo) in *.
  set (c := Spec.tcl ta (clo * 0.155)) in *.
  set (k := 0.303 * exp (-0.036 * M) + 0.028) in *.
  assert (H1 : -293 <= Spec.hl1 M p <= 18) by (unfold Spec.hl1, Spec.W; lra).
  assert (H2 : -25 <= Spec.hl2 M <= 74) by (unfold Spec.hl2, Spec.W; lra).
  assert (H3 : -373 <= Spec.hl3 M p <= 24) by (unfold Spec.hl3; nra).
  assert (H4 : -2 <= Spec.hl4 M ta <= 8) by (unfold Spec.hl4; nra).
  assert (H5 : -5500 <= Spec.hl5 f h c ta <= 30500).
  { unfold Spec.hl5.
    assert (0 <= f * h <= 417.5) by nra.
    set (fh := f * h) in *. nra. }
  assert (H6 : -1000 <= Spec.hl6 f c t <= 1100).
  { unfold Spec.hl6.
    assert (Hc : 270 <= c + 273 <= 386) by lra.
    assert (Ht' : 173 <= t + 273 <= 373) by lra.
    pose proof (pow4_range (c + 273) 270 386 ltac:(lra) Hc) as Hc4.
    pose proof (pow4_range (t + 273) 173 373 ltac:(lra) Ht') as Ht4.
    set (c4 := (c + 273) ^ 4) in *. set (t4 := (t + 273) ^ 4) in *.
    assert (-14100000000 <= c4 - t4 <= 22000000000 ) by lra.
    set (d4 := c4 - t4) in *. nra. }
  unfold Spec.W.
  set (load := M - 0 - Spec.hl1 M p - Spec.hl2 M - Spec.hl3 M p
               - Spec.hl4 M ta - Spec.hl5 f h c ta - Spec.hl6 f c t).
  assert (HL : -33000 <= load <= 33000) by (unfold load; lra).
  apply Rabs_le. clearbody load k. nra.
Qed.

(** ** Failure modes of the exact embedding *)

(** The outcome of a call, by cases on the three fallible operations in the
    order in which the body performs them. *)
Lemma calculate_pmv_pws_fails (ta rh v met clo : R) (tr : option R) :
  ta + 237.3 = 0 ->
  calculate_pmv ta rh v met clo tr None = Raise ZeroDivisionError.
Proof. apply pa_omitted_raises. Qed.

Lemma calculate_pmv_sqrt_fails (ta rh v met clo : R) (tr pa : option R) :
  (pa = None -> ta + 237.3 <> 0) ->
  Rabs (ta - Spec.tr_default ta tr) <= 0.1 -> v < 0 ->
  calculate_pmv ta rh v met clo tr pa = Raise ValueError.
Proof.
  intros Hpa Hd Hv. unfold calculate_pmv, calculate_pmv_locals.
  rewrite (vapour_pressure_spec ta rh pa Hpa). simpl bind.
  replace (match tr with None => ta | Some t => t end)
    with (Spec.tr_default ta tr) by (destruct tr; reflexivity).
  rewrite hc_forced_neg by assumption. reflexivity.
Qed.

Lemma calculate_pmv_tcl_fails (ta rh v met clo : R) (tr pa : option R) :
  (pa = None -> ta + 237.3 <> 0) ->
  (Rabs (ta - Spec.tr_default ta tr) <= 0.1 -> 0 <= v) ->
  6.45 * (clo * 0.155) + 0.1 = 0 ->
  calculate_pmv ta rh v met clo tr pa = Raise ZeroDivisionError.
Proof.
  intros Hpa Hv Hz. unfold calculate_pmv, calculate_pmv_locals.
  rewrite (vapour_pressure_spec ta rh pa Hpa). simpl bind.
  replace (match tr with None => ta | Some t => t end)
    with (Spec.tr_default ta tr) by (destruct tr; reflexivity).
  rewrite (hc_spec _ _ _ Hv). simpl bind.
  rewrite tcl_zero by (rewrite Hz; lra). reflexivity.
Qed.

(** The four outcomes of a call. *)
Lemma calculate_pmv_outcome (ta rh v met clo : R) (tr pa : option R) :
  (pa = None /\ ta + 237.3 = 0
   /\ calculate_pmv ta rh v met clo tr pa = Raise ZeroDivisionError)
  \/ ((pa = None -> ta + 237.3 <> 0)
      /\ Rabs (ta - Spec.tr_default ta tr) <= 0.1 /\ v < 0
      /\ calculate_pmv ta rh v met clo tr pa = Raise ValueError)
  \/ ((pa = None -> ta + 237.3 <> 0)
      /\ (Rabs (ta - Spec.tr_default ta tr) <= 0.1 -> 0 <= v)
      /\ 6.45 * (clo * 0.155) + 0.1 = 0
      /\ calculate_pmv ta rh v met clo tr pa = Raise ZeroDivisionError)
  \/ ((pa = None -> ta + 237.3 <> 0)
      /\ (Rabs (ta - Spec.tr_default ta tr) <= 0.1 -> 0 <= v)
      /\ 6.45 * (clo * 0.155) + 0.1 <> 0
      /\ exists r, calculate_pmv ta rh v met clo tr pa = Ok r).
Proof.
  assert (Hpa : (pa = None /\ ta + 237.3 = 0)
                \/ (pa = None -> ta + 237.3 <> 0)).
  { destruct pa as [p |]; [right; discriminate |].
    destruct (Req_dec_T (ta + 237.3) 0); [left | right]; auto. }
  destruct Hpa as [(-> & Hz) | Hpa].
  { left. repeat split; trivial. apply calculate_pmv_pws_fails, Hz. }
  right.
  assert (Hv : (Rabs (ta - Spec.tr_default ta tr) <= 0.1 /\ v < 0)
               \/ (Rabs (ta - Spec.tr_default ta tr) <= 0.1 -> 0 <= v)).
  { destruct (Rle_dec (Rabs (ta - Spec.tr_default ta tr)) 0.1);
      [| right; intros; lra].
    destruct (Rlt_dec v 0); [left | right; intros]; auto; lra. }
  destruct Hv as [(Hd & Hv) | Hv].
  { left. repeat split; trivial. apply calculate_pmv_sqrt_fails; trivial. }
  right.
  destruct (Req_dec_T (6.45 * (clo * 0.155) + 0.1) 0) as [Hz | Hnz].
  { left. repeat split; trivial. apply calculate_pmv_tcl_fails; trivial. }
  right. repeat split; trivial.
  exists (Spec.evaluate_pmv ta rh v met clo tr pa).
  apply calculate_pmv_ok. unfold Spec.in_domain, Spec.Icl.
  repeat split; trivial. lra.
Qed.

(** The domain condition of the closed form is exactly the set of inputs on
    which the call returns. *)
Lemma in_domain_iff_returns (ta rh v met clo : R) (tr pa : option R) :
  Spec.in_domain ta v clo tr pa
  <-> exists r, calculate_pmv ta rh v met clo tr pa = Ok r.
Proof.
  split.
  - intros Hdom. eexists. apply calculate_pmv_ok, Hdom.
  - intros (r & Hr).
    destruct (calculate_pmv_outcome ta rh v met clo tr pa)
      as [(_ & _ & H) | [(_ & _ & _ & H) | [(_ & _ & _ & H)
      | (Hpa & Hv & Hnz & _)]]];
      try (rewrite H in Hr; discriminate).
    unfold Spec.in_domain, Spec.Icl. repeat split; trivial. lra.
Qed.

(** In the exact embedding a call fails exactly when one of three operations
    leaves its real-valued domain: the division by [ta + 237.3] in the
    derivation of an omitted [pa] (zero divisor), the square root of a
    negative [wind_speed] in the forced-convection branch, or the division
    by [3.5 * (6.45*Icl + 0.1)] (zero divisor).  The base of [** 0.25] is
    never negative.  (The failures of the float range are the subject of
    the [Binary64] embedding, see [calculate_pmv_failure_modes].) *)
Lemma calculate_pmv_domain_errors (ta rh v met clo : R) (tr pa : option R) :
  (raises (calculate_pmv ta rh v met clo tr pa) <->
     (pa = None /\ ta + 237.3 = 0)
     \/ (Rabs (ta - Spec.tr_default ta tr) <= 0.1 /\ v < 0)
     \/ 6.45 * (clo * 0.155) + 0.1 = 0)
  /\ (calculate_pmv ta rh v met clo tr pa = Raise ValueError <->
        (pa = None -> ta + 237.3 <> 0)
        /\ Rabs (ta - Spec.tr_default ta tr) <= 0.1 /\ v < 0)
  /\ (calculate_pmv ta rh v met clo tr pa = Raise ZeroDivisionError <->
        (pa = None /\ ta + 237.3 = 0)
        \/ ((pa = None -> ta + 237.3 <> 0)
            /\ (Rabs (ta - Spec.tr_default ta tr) <= 0.1 -> 0 <= v)
            /\ 6.45 * (clo * 0.155) + 0.1 = 0))
  /\ 0 <= Rabs (ta - Spec.tr_default ta tr).
Proof.
  pose proof (calculate_pmv_outcome ta rh v met clo tr pa) as Hcases.
  unfold raises.
  split; [| split; [| split; [| apply Rabs_pos]]]; split.
  - intros (e & He).
    destruct Hcases as [(Hn & Hz & _) | [(_ & Hd & Hneg & _)
      | [(_ & _ & Hz & _) | (_ & _ & _ & r & Hr)]]]; auto.
    rewrite Hr in He. discriminate.
  - intros Hfail.
    destruct Hcases as [(_ & _ & H) | [(_ & _ & _ & H) | [(_ & _ & _ & H)
      | (Hpa & Hv & Hnz & _)]]]; eauto.
    destruct Hfail as [(Hn & Hz) | [(Hd & Hneg) | Hz]].
    + elim (Hpa Hn Hz).
    + specialize (Hv Hd). lra.
    + contradiction.
  - intros He.
    destruct Hcases as [(_ & _ & H) | [(Hpa & Hd & Hneg & _)
      | [(_ & _ & _ & H) | (_ & _ & _ & r & H)]]]; auto;
      rewrite H in He; discriminate.
  - intros (Hpa & Hd & Hneg).
    apply calculate_pmv_sqrt_fails; assumption.
  - intros He.
    destruct Hcases as [(Hn & Hz & _) | [(_ & _ & _ & H)
      | [(Hpa & Hv & Hz & _) | (_ & _ & _ & r & H)]]]; auto;
      rewrite H in He; discriminate.
  - intros [(-> & Hz) | (Hpa & Hv & Hz)].
    + apply calculate_pmv_pws_fails, Hz.
    + apply calculate_pmv_tcl_fails; assumption.
Qed.

(** C5 as stated fails at [ta = -237.3] with [pa] omitted: the call raises
    [ZeroDivisionError] although the radicand [wind_speed] and the base of
    [** 0.25] are non-negative and [6.45*Icl + 0.1] is not zero. *)
Lemma failure_modes_counterexample :
  calculate_pmv (-237.3) 50 0.1 1.2 0.5 None None = Raise ZeroDivisionError
  /\ 0 <= 0.1
  /\ 0 <= Rabs (-237.3 - Spec.tr_default (-237.3) None)
  /\ 6.45 * (0.5 * 0.155) + 0.1 <> 0.
Proof.
  repeat split.
  - apply calculate_pmv_pws_fails. lra.
  - lra.
  - apply Rabs_pos.
  - lra.
Qed.

(** The failure modes that the claim does list, on concrete inputs. *)
Example negative_wind_speed_raises :
  calculate_pmv 25 50 (-1) 1.2 0.5 None None = Raise ValueError.
Proof.
  apply calculate_pmv_sqrt_fails.
  - intros _. lra.
  - simpl. replace (25 - 25) with 0 by lra. rewrite Rabs_R0. lra.
  - lra.
Qed.

(** The zero divisor of line 34 is reached at the real number
    [clo = -400/3999], the solution of [6.45 * (clo * 0.155) + 0.1 = 0]. *)
Example zero_denominator_raises :
  calculate_pmv 25 50 0.1 1.2 (-400 / 3999) None None = Raise ZeroDivisionError.
Proof.
  apply calculate_pmv_tcl_fails.
  - intros _. lra.
  - intros _. lra.
  - lra.
Qed.

(** ** Dependence on the air speed *)

(** The closed form is affine in [hc], with slope
    [- sensitivity * fcl * (tcl - ta)]. *)
Lemma evaluate_pmv_diff (ta rh v1 v2 met clo : R) (tr pa : option R) :
  Spec.evaluate_pmv ta rh v1 met clo tr pa
  - Spec.evaluate_pmv ta rh v2 met clo tr pa
  = (0.303 * exp (-0.036 * Spec.M met) + 0.028)
    * Spec.fcl clo
    * (Spec.tcl ta (Spec.Icl clo) - ta)
    * (Spec.hc ta (Spec.tr_default ta tr) v2
       - Spec.hc ta (Spec.tr_default ta tr) v1).
Proof. unfold Spec.evaluate_pmv, Spec.hl5. ring. Qed.

Lemma hc_ignores_speed (ta tr v1 v2 : R) :
  Rabs (ta - tr) > 0.1 -> Spec.hc ta tr v1 = Spec.hc ta tr v2.
Proof.
  intros H. unfold Spec.hc.
  destruct (Rgt_dec (Rabs (ta - tr)) 0.1); [reflexivity | contradiction].
Qed.

Lemma hc_increasing (ta tr v1 v2 : R) :
  Rabs (ta - tr) <= 0.1 -> 0 <= v1 -> v1 < v2 ->
  Spec.hc ta tr v1 < Spec.hc ta tr v2.
Proof.
  intros H Hv1 Hlt. unfold Spec.hc.
  destruct (Rgt_dec (Rabs (ta - tr)) 0.1); [lra |].
  pose proof (sqrt_lt_1_alt v1 v2 (conj Hv1 Hlt)). lra.
Qed.

(** How the closed form reacts to a larger air speed. *)
Lemma evaluate_pmv_speed (ta rh v1 v2 met clo : R) (tr pa : option R) :
  0 <= clo -> 0 <= v1 -> v1 < v2 ->
  (Rabs (ta - Spec.tr_default ta tr) > 0.1 ->
     Spec.evaluate_pmv ta rh v2 met clo tr pa
     = Spec.evaluate_pmv ta rh v1 met clo tr pa)
  /\ (Rabs (ta - Spec.tr_default ta tr) <= 0.1 -> ta < 35.5 ->
        Spec.evaluate_pmv ta rh v2 met clo tr pa
        < Spec.evaluate_pmv ta rh v1 met clo tr pa)
  /\ (Rabs (ta - Spec.tr_default ta tr) <= 0.1 -> ta = 35.5 ->
        Spec.evaluate_pmv ta rh v2 met clo tr pa
        = Spec.evaluate_pmv ta rh v1 met clo tr pa)
  /\ (Rabs (ta - Spec.tr_default ta tr) <= 0.1 -> 35.5 < ta ->
        Spec.evaluate_pmv ta rh v1 met clo tr pa
        < Spec.evaluate_pmv ta rh v2 met clo tr pa).
Proof.
  intros Hclo Hv1 Hlt.
  pose proof (evaluate_pmv_diff ta rh v1 v2 met clo tr pa) as Hdiff.
  pose proof (sensitivity_pos (Spec.M met)) as Hk.
  pose proof (fcl_pos clo Hclo) as Hf.
  destruct (tcl_excess ta clo Hclo) as (Hexc & Hden).
  unfold Spec.Icl in Hdiff. rewrite Hexc in Hdiff.
  set (k := 0.303 * exp (-0.036 * Spec.M met) + 0.028) in *.
  set (f := Spec.fcl clo) in *.
  set (den := 3.5 * (6.45 * (clo * 0.155) + 0.1)) in *.
  set (h1 := Spec.hc ta (Spec.tr_default ta tr) v1) in *.
  set (h2 := Spec.hc ta (Spec.tr_default ta tr) v2) in *.
  set (r1 := Spec.evaluate_pmv ta rh v1 met clo tr pa) in *.
  set (r2 := Spec.evaluate_pmv ta rh v2 met clo tr pa) in *.
  assert (Hkf : 0 < k * f) by (apply Rmult_lt_0_compat; lra).
  repeat split.
  - intros Hd.
    assert (Hh : h1 = h2) by (apply hc_ignores_speed; assumption).
    rewrite Hh in Hdiff. replace (h2 - h2) with 0 in Hdiff by lra.
    rewrite Rmult_0_r in Hdiff. lra.
  - intros Hd Hta.
    assert (Hh : h1 < h2) by (apply hc_increasing; assumption).
    assert (Hexc' : 0 < (35.5 - ta) / den)
      by (apply Rdiv_lt_0_compat; lra).
    assert (0 < k * f * ((35.5 - ta) / den) * (h2 - h1)).
    { apply Rmult_lt_0_compat; [apply Rmult_lt_0_compat |]; lra. }
    lra.
  - intros Hd Hta.
    replace (35.5 - ta) with 0 in Hdiff by lra.
    unfold Rdiv in Hdiff. rewrite Rmult_0_l, Rmult_0_r, Rmult_0_l in Hdiff.
    lra.
  - intros Hd Hta.
    assert (Hh : h1 < h2) by (apply hc_increasing; assumption).
    assert (Hexc' : 0 < (ta - 35.5) / den)
      by (apply Rdiv_lt_0_compat; lra).
    assert (0 < k * f * ((ta - 35.5) / den) * (h2 - h1)).
    { apply Rmult_lt_0_compat; [apply Rmult_lt_0_compat |]; lra. }
    replace ((35.5 - ta) / den) with (- ((ta - 35.5) / den)) in Hdiff
      by (unfold Rdiv; ring).
    assert (r1 - r2 = - (k * f * ((ta - 35.5) / den) * (h2 - h1)))
      by (rewrite Hdiff; ring).
    lra.
Qed.




(** It also fails in air hotter than the clothing surface: at [ta = 38] a
    larger air speed gives a strictly higher PMV. *)
Lemma air_speed_counterexample_hot :
  exists r1 r2,
    calculate_pmv 38 50 0 1.2 0.5 None None = Ok r1
    /\ calculate_pmv 38 50 1 1.2 0.5 None None = Ok r2
    /\ 0 < 1 /\ r1 < r2.
Proof.
  exists (Spec.evaluate_pmv 38 50 0 1.2 0.5 None None),
         (Spec.evaluate_pmv 38 50 1 1.2 0.5 None None).
  split; [apply calculate_pmv_ok;
          apply (physically_valid_in_domain 38 50 0 1.2 0.5);
          unfold physically_valid; lra |].
  split; [apply calculate_pmv_ok;
          apply (physically_valid_in_domain 38 50 1 1.2 0.5);
          unfold physically_valid; lra |].
  split; [lra |].
  destruct (evaluate_pmv_speed 38 50 0 1 1.2 0.5 None None)
    as (_ & _ & _ & Hinc); try lra.
  apply Hinc; [| lra].
  simpl. replace (38 - 38) with 0 by lra. rewrite Rabs_R0. lra.
Qed.

(** * Further properties of [calculate_pmv] *)


(** X1. The value returned is the thermal load of the run (metabolic heat
    minus the six losses) times a factor between 0.028 and, for [met >= 0],
    0.331: it has the sign of the load, and it is zero exactly when the heat
    balance closes. *)
Theorem pmv_sign_is_load_sign (ta rh v met clo : R) (tr pa : option R)
    (l : Locals.t) :
  calculate_pmv_locals ta rh v met clo tr pa = Ok l ->
  calculate_pmv ta rh v met clo tr pa = Ok (Locals.pmv l)
  /\ (0 < Locals.pmv l <-> 0 < thermal_load l)
  /\ (Locals.pmv l = 0 <-> thermal_load l = 0)
  /\ (Locals.pmv l < 0 <-> thermal_load l < 0)
  /\ 0.028 * Rabs (thermal_load l) <= Rabs (Locals.pmv l)
  /\ (0 <= met -> Rabs (Locals.pmv l) <= 0.331 * Rabs (thermal_load l)).
Proof.
  intros Hrun.
  split; [apply calculate_pmv_returns_local; assumption |].
  destruct (calculate_pmv_locals_inv _ _ _ _ _ _ _ _ Hrun)
    as (pa' & hc' & tcl' & _ & _ & _ & ->).
  unfold thermal_load. simpl. unfold pmv, math_exp.
  pose proof (sensitivity_pos (met * 58.15)) as Hk.
  set (k := 0.303 * exp (-0.036 * (met * 58.15)) + 0.028) in *.
  match goal with |- context [k * ?L] => set (load := L) end.
  clearbody load.
  assert (Hpos : 0 < load -> 0 < k * load) by (intros; apply Rmult_lt_0_compat; lra).
  assert (Hneg : load < 0 -> k * load < 0) by (intros; nra).
  assert (Hz : load = 0 -> k * load = 0) by (intros ->; lra).
  assert (Hk2 : 0 <= met -> k <= 0.331).
  { intros Hm. assert (HM : 0 <= met * 58.15) by lra.
    pose proof (sensitivity_range (met * 58.15) HM) as Hr. fold k in Hr. lra. }
  destruct (Rtotal_order load 0) as [Hl | [Hl | Hl]].
  - pose proof (Hneg Hl).
    rewrite (Rabs_left load), (Rabs_left (k * load)) by lra.
    repeat split; intros; try lra; try nra;
      match goal with H : 0 <= met |- _ => specialize (Hk2 H) end; nra.
  - pose proof (Hz Hl). rewrite Hl in *. rewrite Rmult_0_r, Rabs_R0.
    repeat split; intros; lra.
  - pose proof (Hpos Hl).
    rewrite (Rabs_pos_eq load), (Rabs_pos_eq (k * load)) by lra.
    repeat split; intros; try lra; try nra;
      match goal with H : 0 <= met |- _ => specialize (Hk2 H) end; nra.
Qed.

Lemma pmv_sign_is_load_sign_witness :
  exists l,
    calculate_pmv_locals 25 50 0.1 1.2 0.5 None None = Ok l
    /\ 0.028 * Rabs (thermal_load l) <= Rabs (Locals.pmv l)
       <= 0.331 * Rabs (thermal_load l).
Proof.
  destruct (calculate_pmv_locals_ok 25 50 0.1 1.2 0.5 None None
              reference_point_in_domain) as (l & Hrun & _).
  exists l. split; [exact Hrun |].
  destruct (pmv_sign_is_load_sign 25 50 0.1 1.2 0.5 None None l Hrun)
    as (_ & _ & _ & _ & Hlo & Hhi).
  split; [exact Hlo | apply Hhi; lra].
Defined.

(** ** Sensitivity to the vapour pressure and to the humidity *)








(** ** The stages: shape of [fcl], [hc], [tcl] and [pws] *)

Lemma fcl_cases (clo : R) :
  (clo <= 0.5 /\ fcl clo = 1 + 0.2 * clo)
  \/ (0.5 < clo /\ fcl clo = 1.05 + 0.1 * clo).
Proof.
  destruct (Rle_dec clo 0.5) as [H | H].
  - left. split; [assumption | apply fcl_light; assumption].
  - right. split; [lra | apply fcl_heavy; lra].
Qed.

(** X4. The clothing area factor has no jump at its threshold: the two
    formulas of line 32 agree at [clo = 0.5] (both give 1.1), [fcl] is
    increasing with a slope between 0.1 and 0.2, and it is at least 1 for
    [clo >= 0]. *)
Theorem fcl_continuous_increasing (a b : R) :
  a <= b ->
  0.1 * (b - a) <= fcl b - fcl a <= 0.2 * (b - a)
  /\ (a <= 0.5 <= b -> 1 + 0.2 * 0.5 = 1.05 + 0.1 * 0.5 /\ fcl a <= 1.1 <= fcl b)
  /\ (0 <= a -> 1 <= fcl a).
Proof.
  intros Hab.
  destruct (fcl_cases a) as [(Ha & ->) | (Ha & ->)];
    destruct (fcl_cases b) as [(Hb & ->) | (Hb & ->)];
    repeat split; intros; lra.
Qed.

Lemma fcl_continuous_increasing_witness :
  fcl 0.4 <= 1.1 <= fcl 0.6 /\ fcl 0.6 - fcl 0.4 <= 0.2 * (0.6 - 0.4).
Proof.
  destruct (fcl_continuous_increasing 0.4 0.6) as (Hlip & Hmid & _); [lra |].
  split; [apply Hmid; lra | apply Hlip].
Defined.

(** [0.1 ** 0.25] lies above one half: [0.5 ^ 4 = 0.0625 < 0.1]. *)
Lemma Rpower_quarter_lower (x : R) : 0.1 < x -> 0.5 < Rpower x 0.25.
Proof.
  intros Hx.
  assert (H : Rpower 0.0625 0.25 = 0.5).
  { replace 0.0625 with (Rpower 0.5 4).
    - rewrite Rpower_mult. replace (4 * 0.25) with 1 by lra.
      apply Rpower_1. lra.
    - replace 4 with (INR 4) by (simpl; lra).
      rewrite Rpower_pow by lra. lra. }
  rewrite <- H. apply Rlt_Rpower_l; lra.
Qed.

(** X5. Whenever line 30 returns, [hc] is non-negative; in the
    natural-convection branch it exceeds 1.19 whatever the air speed, and it
    vanishes only in still air ([v = 0]) with [|ta - tr| <= 0.1]: the
    coefficient jumps at the threshold. *)
Theorem hc_range_of_values (ta tr v h : R) :
  hc ta tr v = Ok h ->
  0 <= h
  /\ (Rabs (ta - tr) > 0.1 -> 1.19 < h)
  /\ (h = 0 <-> Rabs (ta - tr) <= 0.1 /\ v = 0).
Proof.
  intros H. apply hc_Ok_inv in H.
  destruct H as [(Hgt & ->) | (Hle & Hv & ->)].
  - pose proof (Rpower_quarter_lower _ Hgt) as Hp.
    split; [lra |]. split; [intros; lra |]. split.
    + intros Hz. lra.
    + intros (Hle & _). lra.
  - pose proof (sqrt_pos v) as Hs.
    split; [lra |]. split; [intros; lra |]. split.
    + intros Hz. split; [assumption |].
      assert (Hs0 : sqrt v = 0) by lra.
      apply sqrt_eq_0 in Hs0; assumption.
    + intros (_ & ->). rewrite sqrt_0. lra.
Qed.

Lemma hc_range_of_values_witness :
  exists h, hc 25 30 0 = Ok h /\ 1.19 < h.
Proof.
  assert (Hd : Rabs (25 - 30) > 0.1).
  { unfold Rabs. destruct (Rcase_abs (25 - 30)); lra. }
  exists (2.38 * Rpower (Rabs (25 - 30)) 0.25).
  pose proof (hc_natural 25 30 0 Hd) as Hh.
  split; [exact Hh |].
  apply (hc_range_of_values 25 30 0 _ Hh). exact Hd.
Defined.

(** X6. In every run with [clo >= 0], the clothing surface temperature of
    line 34 lies on the side of 35.5 from the air temperature, and it stays
    between [ta] and 35.5 exactly when [clo >= 5200/27993] (about 0.186,
    where the divisor reaches 1); for lighter clothing it overshoots 35.5. *)
Theorem tcl_bracket (ta rh v met clo : R) (tr pa : option R) (l : Locals.t) :
  calculate_pmv_locals ta rh v met clo tr pa = Ok l ->
  0 <= clo ->
  (Locals.tcl l - ta) * (3.5 * (6.45 * (clo * 0.155) + 0.1)) = 35.5 - ta
  /\ (ta < 35.5 ->
        ta < Locals.tcl l /\ (Locals.tcl l <= 35.5 <-> 5200 / 27993 <= clo))
  /\ (35.5 < ta ->
        Locals.tcl l < ta /\ (35.5 <= Locals.tcl l <-> 5200 / 27993 <= clo))
  /\ (ta = 35.5 -> Locals.tcl l = 35.5).
Proof.
  intros Hrun Hclo.
  destruct (calculate_pmv_locals_inv _ _ _ _ _ _ _ _ Hrun)
    as (pa' & hc' & t & _ & _ & Ht & ->).
  simpl.
  assert (Hden : 0 < 3.5 * (6.45 * (clo * 0.155) + 0.1)) by lra.
  rewrite tcl_ok in Ht by lra. injection Ht as <-.
  set (D := 3.5 * (6.45 * (clo * 0.155) + 0.1)) in *.
  assert (HD : D = 3.499125 * clo + 0.35) by (unfold D; lra).
  assert (Hq : (35.5 - ta) / D * D = 35.5 - ta) by (field; lra).
  set (q := (35.5 - ta) / D) in *.
  assert (Hthr : 5200 / 27993 <= clo <-> 1 <= D) by (rewrite HD; split; intros; lra).
  split; [lra |].
  split; [| split].
  - intros Hta. assert (0 < q) by (apply Rdiv_lt_0_compat; lra).
    split; [lra |]. rewrite Hthr. split; intros; nra.
  - intros Hta. assert (0 < - q).
    { unfold q. replace (- ((35.5 - ta) / D)) with ((ta - 35.5) / D)
        by (field; lra).
      apply Rdiv_lt_0_compat; lra. }
    split; [lra |]. rewrite Hthr. split; intros; nra.
  - intros ->. unfold q. replace (35.5 - 35.5) with 0 by lra.
    unfold Rdiv. rewrite Rmult_0_l. lra.
Qed.

Lemma tcl_bracket_witness :
  exists l,
    calculate_pmv_locals 25 50 0.1 1.2 0 None None = Ok l
    /\ 35.5 < Locals.tcl l.
Proof.
  assert (Hdom : Spec.in_domain 25 0.1 0 None None).
  { unfold Spec.in_domain, Spec.Icl. repeat split; intros; lra. }
  destruct (calculate_pmv_locals_ok 25 50 0.1 1.2 0 None None Hdom)
    as (l & Hrun & _).
  exists l. split; [exact Hrun |].
  destruct (tcl_bracket 25 50 0.1 1.2 0 None None l Hrun) as (_ & Hlt & _);
    [lra |].
  destruct Hlt as (_ & Hiff); [lra |].
  destruct (Rle_dec (Locals.tcl l) 35.5) as [Hle | Hgt]; [| lra].
  apply Hiff in Hle. lra.
Defined.

(** The exponent of the saturation-pressure formula increases with the
    temperature, above the pole at -237.3 degrees. *)
Lemma tetens_exponent_increasing (ta1 ta2 : R) :
  -237.3 < ta1 -> ta1 < ta2 ->
  17.27 * ta1 / (ta1 + 237.3) < 17.27 * ta2 / (ta2 + 237.3).
Proof.
  intros H1 H2.
  assert (Hd1 : 0 < ta1 + 237.3) by lra.
  assert (Hd2 : 0 < ta2 + 237.3) by lra.
  apply (Rmult_lt_reg_r ((ta1 + 237.3) * (ta2 + 237.3)));
    [apply Rmult_lt_0_compat; assumption |].
  replace (17.27 * ta1 / (ta1 + 237.3) * ((ta1 + 237.3) * (ta2 + 237.3)))
    with (17.27 * ta1 * (ta2 + 237.3)) by (field; lra).
  replace (17.27 * ta2 / (ta2 + 237.3) * ((ta1 + 237.3) * (ta2 + 237.3)))
    with (17.27 * ta2 * (ta1 + 237.3)) by (field; lra).
  nra.
Qed.

(** X8. The saturation vapour pressure of line 27 is positive and strictly
    increasing in the temperature above -237.3 degrees (it is 0.6108 kPa at
    0 degrees). *)
Theorem pws_increasing (ta1 ta2 s1 s2 : R) :
  pws ta1 = Ok s1 -> pws ta2 = Ok s2 ->
  -237.3 < ta1 -> ta1 < ta2 ->
  0 < s1 < s2.
Proof.
  intros H1 H2 Hlo Hlt.
  rewrite pws_ok in H1 by lra. rewrite pws_ok in H2 by lra.
  injection H1 as <-. injection H2 as <-.
  pose proof (exp_pos (17.27 * ta1 / (ta1 + 237.3))) as Hp.
  pose proof (exp_increasing _ _ (tetens_exponent_increasing ta1 ta2 Hlo Hlt)).
  lra.
Qed.

Lemma pws_increasing_witness :
  exists s1 s2, pws 0 = Ok s1 /\ pws 25 = Ok s2 /\ 0.6108 = s1 /\ s1 < s2.
Proof.
  assert (H0 : 0 + 237.3 <> 0) by lra.
  assert (H25 : 25 + 237.3 <> 0) by lra.
  exists (0.6108 * exp (17.27 * 0 / (0 + 237.3))),
         (0.6108 * exp (17.27 * 25 / (25 + 237.3))).
  pose proof (pws_ok 0 H0) as P0. pose proof (pws_ok 25 H25) as P25.
  repeat split; [exact P0 | exact P25 | | ].
  - replace (17.27 * 0 / (0 + 237.3)) with 0 by lra. rewrite exp_0. lra.
  - apply (pws_increasing 0 25 _ _ P0 P25); lra.
Defined.

(** X9. In every run with [pa] omitted, the derived [pa] is
    [humidity/100] times the saturation pressure: between 0 and saturation
    for [humidity] in 0..100, equal to it at 100, and outside that range
    (negative, or above saturation) for a [humidity] outside 0..100, which
    the code accepts. *)
Theorem derived_pa_below_saturation
    (ta rh v met clo : R) (tr : option R) (l : Locals.t) :
  calculate_pmv_locals ta rh v met clo tr None = Ok l ->
  exists s,
    pws ta = Ok s /\ 0 < s
    /\ Locals.pa l = rh / 100 * s
    /\ (0 <= rh <= 100 -> 0 <= Locals.pa l <= s)
    /\ (rh = 100 -> Locals.pa l = s)
    /\ (rh < 0 -> Locals.pa l < 0)
    /\ (100 < rh -> s < Locals.pa l).
Proof.
  intros Hrun.
  destruct (calculate_pmv_locals_inv _ _ _ _ _ _ _ _ Hrun)
    as (pa' & hc' & t & Hp & _ & _ & ->).
  simpl.
  assert (Hta : ta + 237.3 <> 0).
  { intros Hz. rewrite vapour_pressure_zero in Hp by assumption. discriminate. }
  rewrite vapour_pressure_derived in Hp by assumption. injection Hp as <-.
  exists (0.6108 * exp (17.27 * ta / (ta + 237.3))).
  pose proof (exp_pos (17.27 * ta / (ta + 237.3))) as He.
  set (s := 0.6108 * exp (17.27 * ta / (ta + 237.3))) in *.
  assert (Hs : 0 < s) by (unfold s; lra).
  split; [apply pws_ok; assumption |].
  split; [assumption |].
  split; [reflexivity |].
  repeat split; intros; nra.
Qed.

Lemma derived_pa_below_saturation_witness :
  exists l s,
    calculate_pmv_locals 25 50 0.1 1.2 0.5 None None = Ok l
    /\ pws 25 = Ok s /\ 0 <= Locals.pa l <= s.
Proof.
  destruct (calculate_pmv_locals_ok 25 50 0.1 1.2 0.5 None None
              reference_point_in_domain) as (l & Hrun & _).
  destruct (derived_pa_below_saturation 25 50 0.1 1.2 0.5 None l Hrun)
    as (s & Hs & _ & _ & Hb & _).
  exists l, s. repeat split; [exact Hrun | exact Hs | apply Hb; lra | apply Hb; lra].
Defined.

(** ** Dependence on the air temperature and on the clothing *)













(** * The range of binary64 *)

(** ** Orders of magnitude

    The finiteness of an intermediate result is proved from a bound on its
    order of magnitude: [mag n x] bounds [x] by [10^n], and the bound of a
    compound expression follows its structure. *)

Lemma pow10_pos (n : nat) : 0 < 10 ^ n.
Proof. apply pow_lt. lra. Qed.

Lemma pow10_le (n m : nat) : (n <= m)%nat -> 10 ^ n <= 10 ^ m.
Proof. intros H. apply Rle_pow; [lra | assumption]. Qed.

Lemma mag_weaken (n m : nat) (x : R) : (n <= m)%nat -> mag n x -> mag m x.
Proof. intros Hnm H. unfold mag in *. pose proof (pow10_le n m Hnm). lra. Qed.

Lemma mag_const (c : R) : -10000 <= c <= 10000 -> mag 4 c.
Proof. intros H. unfold mag. apply Rabs_le. lra. Qed.

Lemma mag_mul (n m : nat) (a b : R) : mag n a -> mag m b -> mag (n + m) (a * b).
Proof.
  unfold mag. intros Ha Hb. rewrite Rabs_mult, pow_add.
  apply Rmult_le_compat; auto using Rabs_pos.
Qed.

Lemma mag_add (n m : nat) (a b : R) :
  mag n a -> mag m b -> mag (S (Nat.max n m)) (a + b).
Proof.
  unfold mag. intros Ha Hb.
  pose proof (Rabs_triang a b) as Ht.
  pose proof (pow10_le n (Nat.max n m) (Nat.le_max_l n m)) as Hn.
  pose proof (pow10_le m (Nat.max n m) (Nat.le_max_r n m)) as Hm.
  pose proof (pow10_pos (Nat.max n m)) as Hp.
  simpl pow. lra.
Qed.

Lemma mag_opp (n : nat) (a : R) : mag n a -> mag n (- a).
Proof. unfold mag. rewrite Rabs_Ropp. trivial. Qed.

Lemma mag_sub (n m : nat) (a b : R) :
  mag n a -> mag m b -> mag (S (Nat.max n m)) (a - b).
Proof. intros Ha Hb. apply mag_add; [assumption | apply mag_opp; assumption]. Qed.

Lemma mag_abs (n : nat) (a : R) : mag n a -> mag n (Rabs a).
Proof. unfold mag. rewrite Rabs_Rabsolu. trivial. Qed.

Lemma mag_pow4 (n : nat) (a : R) : mag n a -> mag (n * 4) (a ^ 4).
Proof.
  unfold mag. intros Ha. rewrite <- RPow_abs, pow_mult.
  apply pow_incr. split; [apply Rabs_pos | assumption].
Qed.

Lemma mag_div (n k : nat) (a b : R) :
  mag n a -> / 10 ^ k <= Rabs b -> mag (n + k) (a / b).
Proof.
  unfold mag. intros Ha Hb.
  pose proof (pow10_pos k) as Hk.
  assert (H0 : 0 < / 10 ^ k) by (apply Rinv_0_lt_compat; assumption).
  assert (Hb0 : b <> 0).
  { intros ->. rewrite Rabs_R0 in Hb. lra. }
  unfold Rdiv. rewrite Rabs_mult, Rabs_inv, pow_add.
  apply Rmult_le_compat; auto using Rabs_pos.
  - left. apply Rinv_0_lt_compat. lra.
  - rewrite <- (Rinv_inv (10 ^ k)).
    apply Rinv_le_contravar; assumption.
Qed.

Lemma exp_nat (n : nat) : exp (INR n) = exp 1 ^ n.
Proof.
  induction n as [| n IH].
  - simpl. apply exp_0.
  - rewrite S_INR, exp_plus, IH. simpl. ring.
Qed.

Lemma exp_le_pow3 (n : nat) (x : R) : x <= INR n -> exp x <= 3 ^ n.
Proof.
  intros Hx.
  apply Rle_trans with (exp (INR n)).
  - destruct Hx as [Hlt | ->]; [left; apply exp_increasing; assumption | lra].
  - rewrite exp_nat. apply pow_incr.
    split; [left; apply exp_pos | apply exp_le_3].
Qed.

Lemma exp_ge_pow2 (n : nat) (x : R) : INR n <= x -> 2 ^ n <= exp x.
Proof.
  intros Hx.
  apply Rle_trans with (exp (INR n)).
  - rewrite exp_nat. apply pow_incr.
    pose proof (exp_ineq1 1 ltac:(lra)). lra.
  - destruct Hx as [Hlt | <-]; [left; apply exp_increasing; assumption | lra].
Qed.

Lemma mag_exp (n : nat) (x : R) : x <= INR n -> mag n (exp x).
Proof.
  intros Hx. unfold mag.
  rewrite Rabs_pos_eq by (left; apply exp_pos).
  apply Rle_trans with (3 ^ n); [apply exp_le_pow3; assumption |].
  apply pow_incr. lra.
Qed.

(** ** The overflow threshold and rounding *)

Lemma overflow_threshold_above : 10 ^ 308 < Binary64.overflow_threshold.
Proof.
  unfold Binary64.overflow_threshold. rewrite pow_IZR.
  apply IZR_lt. reflexivity.
Qed.

Lemma overflow_threshold_below : Binary64.overflow_threshold < 2 ^ 1024.
Proof.
  unfold Binary64.overflow_threshold. rewrite pow_IZR.
  apply IZR_lt. reflexivity.
Qed.

Lemma overflow_threshold_pow3 : 3 ^ 646 < Binary64.overflow_threshold.
Proof.
  unfold Binary64.overflow_threshold. rewrite pow_IZR.
  apply IZR_lt. reflexivity.
Qed.

Lemma mag_lt_threshold (n : nat) (r : R) :
  mag n r -> (n <= 308)%nat -> Rabs r < Binary64.overflow_threshold.
Proof.
  intros Hr Hn. unfold mag in Hr.
  pose proof (pow10_le n 308 Hn). pose proof overflow_threshold_above. lra.
Qed.

Lemma round_in_range (r : R) :
  Rabs r < Binary64.overflow_threshold -> Binary64.round r = Fin r.
Proof.
  intros H. apply Rabs_def2 in H. unfold Binary64.round.
  destruct (Rle_dec Binary64.overflow_threshold r); [lra |].
  destruct (Rle_dec r (- Binary64.overflow_threshold)); [lra | reflexivity].
Qed.

Lemma round_fin (r : R) :
  (exists n, mag n r /\ (n <=? 308)%nat = true) -> Binary64.round r = Fin r.
Proof.
  intros (n & Hr & Hn). apply round_in_range.
  apply (mag_lt_threshold n); [assumption | apply Nat.leb_le; assumption].
Qed.

Lemma round_cases (r : R) :
  Binary64.round r = Fin r
  \/ (Binary64.round r = PInf /\ Binary64.overflow_threshold <= r)
  \/ (Binary64.round r = NInf /\ r <= - Binary64.overflow_threshold).
Proof.
  unfold Binary64.round.
  destruct (Rle_dec Binary64.overflow_threshold r); [auto |].
  destruct (Rle_dec r (- Binary64.overflow_threshold)); auto.
Qed.

(** [mag] bounds an expression from the bounds of its atoms; [round_step]
    removes one [round] whose argument is bounded below [10^308]. *)
Ltac mag :=
  first
    [ eassumption
    | apply mag_const; lra
    | lazymatch goal with
      | |- mag _ (_ * _) => eapply mag_mul; mag
      | |- mag _ (_ + _) => eapply mag_add; mag
      | |- mag _ (_ - _) => eapply mag_sub; mag
      | |- mag _ (- _) => eapply mag_opp; mag
      | |- mag _ (Rabs _) => eapply mag_abs; mag
      | |- mag _ (_ ^ 4) => eapply mag_pow4; mag
      end ].

Ltac round_step :=
  match goal with
  | |- context [Binary64.round ?r] =>
      rewrite (round_fin r) by (eexists; split; [mag | reflexivity])
  end.

Ltac float_eval :=
  repeat (cbn [Binary64.fadd Binary64.fsub Binary64.fmul Binary64.fabs];
          try round_step).

(** ** The primitives on finite arguments *)

Lemma truediv_agrees (a b : R) :
  (b <> 0 -> exists n, mag n (a / b) /\ (n <=? 308)%nat = true) ->
  Binary64.truediv (Fin a) (Fin b) = lift (a // b).
Proof.
  intros H. unfold Binary64.truediv, truediv.
  destruct (Req_dec_T b 0) as [Hz | Hnz]; [reflexivity |].
  simpl. rewrite round_fin by auto. reflexivity.
Qed.

Lemma math_sqrt_agrees (a : R) :
  Binary64.math_sqrt (Fin a) = lift (math_sqrt a).
Proof.
  unfold Binary64.math_sqrt, math_sqrt.
  destruct (Rlt_dec a 0); reflexivity.
Qed.

Lemma math_exp_fin (n : nat) (x : R) :
  x <= IZR (Z.of_nat n) -> (n <=? 308)%nat = true ->
  Binary64.math_exp (Fin x) = Ok (Fin (exp x)) /\ mag n (exp x).
Proof.
  intros Hx Hn. rewrite <- INR_IZR_INZ in Hx.
  pose proof (mag_exp n x Hx) as Hm.
  split; [| assumption].
  unfold Binary64.math_exp.
  destruct (Rle_dec Binary64.overflow_threshold (exp x)) as [Hge | _];
    [| reflexivity].
  apply Nat.leb_le in Hn.
  pose proof (mag_lt_threshold n (exp x) Hm Hn) as Hlt.
  rewrite Rabs_pos_eq in Hlt by (left; apply exp_pos). lra.
Qed.

Lemma pow_4_fin (n : nat) (a : R) :
  mag n a -> (n * 4 <=? 308)%nat = true ->
  Binary64.pow_4 (Fin a) = Ok (Fin (a ^ 4)).
Proof.
  intros Ha Hn. apply Nat.leb_le in Hn.
  pose proof (mag_lt_threshold _ _ (mag_pow4 n a Ha) Hn) as Hlt.
  apply Rabs_def2 in Hlt.
  unfold Binary64.pow_4.
  destruct (Rle_dec Binary64.overflow_threshold (a ^ 4)); [lra | reflexivity].
Qed.

(** [x ** 0.25] and [math.sqrt(x)] stay below [1 + x]. *)
Lemma float_pow_quarter_range (d : R) :
  0 <= d -> 0 <= float_pow d 0.25 <= 1 + d.
Proof.
  intros Hd. unfold float_pow.
  destruct (Req_dec_T d 0) as [-> | Hnz].
  - destruct (Req_dec_T 0.25 0); lra.
  - assert (Hp : 0 < Rpower d 0.25) by apply exp_pos.
    split; [lra |].
    destruct (Rle_dec 1 d) as [Hge | Hlt].
    + apply Rle_trans with (Rpower d 1).
      * apply Rle_Rpower; lra.
      * rewrite Rpower_1 by lra. lra.
    + apply Rle_trans with (Rpower 1 0.25).
      * apply Rle_Rpower_l; lra.
      * unfold Rpower. rewrite ln_1, Rmult_0_r, exp_0. lra.
Qed.

Lemma sqrt_range (v : R) : 0 <= v -> 0 <= sqrt v <= 1 + v.
Proof.
  intros Hv. split; [apply sqrt_pos |].
  destruct (Rle_dec 1 v) as [Hge | Hlt].
  - apply Rle_trans with (sqrt (v * v)).
    + apply sqrt_le_1_alt. nra.
    + rewrite sqrt_square by lra. lra.
  - apply Rle_trans with (sqrt 1); [apply sqrt_le_1_alt; lra |].
    rewrite sqrt_1. lra.
Qed.

Lemma mag_succ_of_range (n : nat) (d x : R) :
  mag n d -> 0 <= d -> 0 <= x <= 1 + d -> mag (S n) x.
Proof.
  unfold mag. intros Hd Hd0 Hx.
  rewrite Rabs_pos_eq in Hd by assumption.
  rewrite Rabs_pos_eq by lra.
  pose proof (pow10_pos n) as Hp.
  assert (1 <= 10 ^ n).
  { replace 1 with (10 ^ 0) by reflexivity. apply pow10_le. lia. }
  simpl pow. lra.
Qed.

Lemma pow_quarter_fin (n : nat) (d : R) :
  mag n d -> 0 <= d -> (S n <=? 308)%nat = true ->
  Binary64.pow_quarter (Fin d) = Ok (Fin (float_pow d 0.25))
  /\ mag (S n) (float_pow d 0.25).
Proof.
  intros Hd Hd0 Hn.
  pose proof (mag_succ_of_range n d _ Hd Hd0 (float_pow_quarter_range d Hd0)) as Hm.
  split; [| assumption].
  apply Nat.leb_le in Hn.
  pose proof (mag_lt_threshold _ _ Hm Hn) as Hlt. apply Rabs_def2 in Hlt.
  unfold Binary64.pow_quarter.
  destruct (Rle_dec Binary64.overflow_threshold (float_pow d 0.25));
    [lra | reflexivity].
Qed.

Lemma mag_of_abs (x : R) : Rabs x <= 1e6 -> mag 6 x.
Proof. unfold mag. intros H. replace (10 ^ 6) with 1e6 by lra. assumption. Qed.

(** ** The stages on arguments of moderate magnitude

    Each stage of the [Binary64] embedding returns the float of the value of
    the exact stage, or raises the same exception. *)

(** *** Lines 25-28 *)

Lemma pws_agrees (ta : R) :
  mag 6 ta -> ta = -237.3 \/ -237 <= ta ->
  Binary64.pws (Fin ta) = lift (pws ta)
  /\ forall s, pws ta = Ok s -> mag 22 s.
Proof.
  intros Hta Hscope. unfold Binary64.pws, pws.
  float_eval.
  destruct Hscope as [-> | Hlo].
  - assert (Hz : -237.3 + 237.3 = 0) by lra.
    unfold Binary64.truediv. rewrite truediv_zero by assumption.
    destruct (Req_dec_T (-237.3 + 237.3) 0); [| contradiction].
    split; [reflexivity | discriminate].
  - assert (Hd : 0.3 <= ta + 237.3) by lra.
    assert (Hq : mag (4 + 6 + 1) (17.27 * ta / (ta + 237.3))).
    { apply mag_div; [mag |]. rewrite Rabs_pos_eq by lra. lra. }
    rewrite truediv_agrees by (intros _; eexists; split; [exact Hq | reflexivity]).
    rewrite truediv_ok by lra. cbn [lift bind].
    destruct (math_exp_fin 18 (17.27 * ta / (ta + 237.3))) as (-> & He);
      [| reflexivity |].
    { simpl Z.of_nat. apply Rdiv_le_upper; lra. }
    cbn [bind]. float_eval. unfold math_exp.
    split; [reflexivity |].
    intros s [= <-]. eapply mag_weaken; [| mag]. simpl. lia.
Qed.

Lemma vapour_pressure_agrees (ta rh : R) (pa : option R) :
  mag 6 ta -> mag 6 rh ->
  match pa with Some p => mag 6 p | None => ta = -237.3 \/ -237 <= ta end ->
  Binary64.vapour_pressure (Fin ta) (Fin rh) (option_map Fin pa)
  = lift (vapour_pressure ta rh pa)
  /\ forall p, vapour_pressure ta rh pa = Ok p -> mag 30 p.
Proof.
  intros Hta Hrh Hpa.
  unfold Binary64.vapour_pressure, vapour_pressure.
  destruct pa as [p |]; cbn [option_map lift].
  - split; [reflexivity |]. intros p' [= <-].
    apply (mag_weaken 6); [lia | assumption].
  - destruct (pws_agrees ta Hta Hpa) as (-> & Hs).
    destruct (pws ta) as [s | e]; cbn [lift bind]; [| split; [reflexivity | discriminate]].
    specialize (Hs s eq_refl).
    assert (Hh : mag (6 + 0) (rh / 100.0)).
    { apply mag_div; [assumption |]. simpl pow. rewrite Rabs_pos_eq by lra. lra. }
    rewrite truediv_agrees by (intros _; eexists; split; [exact Hh | reflexivity]).
    rewrite truediv_ok by lra. cbn [lift bind]. float_eval.
    split; [reflexivity |].
    intros p [= <-]. eapply mag_weaken; [| mag]. simpl. lia.
Qed.

(** *** Line 30 *)

Lemma hc_agrees (ta tr v : R) :
  mag 6 ta -> mag 6 tr -> mag 6 v ->
  Binary64.hc (Fin ta) (Fin tr) (Fin v) = lift (hc ta tr v)
  /\ forall h, hc ta tr v = Ok h -> mag 13 h.
Proof.
  intros Hta Htr Hv. unfold Binary64.hc, hc. float_eval.
  cbn [Binary64.fgt].
  destruct (Rabs (ta - tr) >? 0.1).
  - destruct (pow_quarter_fin (S (Nat.max 6 6)) (Rabs (ta - tr))) as (-> & Hp);
      [mag | apply Rabs_pos | reflexivity |].
    cbn [bind]. float_eval.
    split; [reflexivity |].
    intros h [= <-]. eapply mag_weaken; [| mag]. simpl. lia.
  - rewrite math_sqrt_agrees. unfold math_sqrt.
    destruct (Rlt_dec v 0) as [Hneg | Hpos]; cbn [lift bind];
      [split; [reflexivity | discriminate] |].
    assert (Hs : mag 7 (sqrt v)).
    { apply (mag_succ_of_range 6 v); [assumption | lra | apply sqrt_range; lra]. }
    float_eval.
    split; [reflexivity |].
    intros h [= <-]. eapply mag_weaken; [| mag]. simpl. lia.
Qed.

(** *** Line 32 *)

Lemma fcl_agrees (clo : R) :
  mag 6 clo -> Binary64.fcl (Fin clo) = Fin (fcl clo) /\ mag 12 (fcl clo).
Proof.
  intros Hclo. unfold Binary64.fcl, fcl. cbn [Binary64.fgt].
  destruct (clo >? 0.5); float_eval;
    (split; [reflexivity | eapply mag_weaken; [| mag]; simpl; lia]).
Qed.

(** *** Line 34 *)

Lemma tcl_agrees (ta Icl : R) :
  mag 6 ta -> mag 10 Icl ->
  (6.45 * Icl + 0.1 = 0 \/ 0.001 <= Rabs (6.45 * Icl + 0.1)) ->
  Binary64.tcl (Fin ta) (Fin Icl) = lift (tcl ta Icl)
  /\ forall t, tcl ta Icl = Ok t -> mag 13 t.
Proof.
  intros Hta HIcl Hden. unfold Binary64.tcl, tcl. float_eval.
  set (den := 3.5 * (6.45 * Icl + 0.1)).
  assert (Hq : den <> 0 -> mag (8 + 3) ((35.5 - ta) / den)).
  { intros Hnz. apply mag_div; [eapply mag_weaken; [| mag]; simpl; lia |].
    destruct Hden as [Hz | Hge]; [unfold den in Hnz; rewrite Hz in Hnz; lra |].
    unfold den. rewrite Rabs_mult, (Rabs_pos_eq 3.5) by lra. simpl pow. lra. }
  rewrite truediv_agrees
    by (intros Hnz; eexists; split; [exact (Hq Hnz) | reflexivity]).
  unfold truediv. destruct (Req_dec_T den 0) as [Hz | Hnz]; cbn [lift bind];
    [split; [reflexivity | discriminate] |].
  specialize (Hq Hnz). float_eval.
  split; [reflexivity |].
  intros h [= <-]. eapply mag_weaken; [| mag]. simpl. lia.
Qed.

Lemma Icl_fin (clo : R) :
  mag 6 clo ->
  Binary64.fmul (Fin clo) (Fin 0.155) = Fin (clo * 0.155)
  /\ mag (6 + 4) (clo * 0.155).
Proof. intros H. split; [float_eval; reflexivity | mag]. Qed.

(** *** Line 40 *)

Lemma hl6_agrees (f t r : R) :
  mag 12 f -> mag 13 t -> mag 6 r ->
  Binary64.hl6 (Fin f) (Fin t) (Fin r) = Ok (Fin (hl6 f t r))
  /\ mag 80 (hl6 f t r).
Proof.
  intros Hf Ht Hr. unfold Binary64.hl6, hl6. float_eval.
  rewrite (pow_4_fin (S (Nat.max 13 4))) by (mag || reflexivity).
  rewrite (pow_4_fin (S (Nat.max 6 4))) by (mag || reflexivity).
  cbn [bind]. float_eval.
  split; [reflexivity |]. eapply mag_weaken; [| mag]. simpl. lia.
Qed.

(** *** Line 41 *)

Lemma pmv_agrees (met p h5 h6 ta : R) :
  -100 <= met <= 1e6 -> mag 6 ta -> mag 30 p -> mag 40 h5 -> mag 80 h6 ->
  let M := met * 58.15 in
  Binary64.pmv (Fin M) (Fin 0) (Binary64.hl1 (Fin M) (Fin 0) (Fin p))
    (Binary64.hl2 (Fin M) (Fin 0)) (Binary64.hl3 (Fin M) (Fin p))
    (Binary64.hl4 (Fin M) (Fin ta)) (Fin h5) (Fin h6)
  = Ok (Fin (pmv M 0 (hl1 M 0 p) (hl2 M 0) (hl3 M p) (hl4 M ta) h5 h6)).
Proof.
  intros Hmet Hta Hp H5 H6 M.
  assert (Hmet' : mag 6 met) by (apply mag_of_abs, Rabs_le; lra).
  assert (HM : mag (6 + 4) M) by (unfold M; mag).
  destruct (math_exp_fin 210 (-0.036 * M)) as (He & Hmag);
    [simpl Z.of_nat; unfold M; lra | reflexivity |].
  clearbody M.
  unfold Binary64.pmv, Binary64.hl1, Binary64.hl2, Binary64.hl3, Binary64.hl4.
  unfold pmv, hl1, hl2, hl3, hl4, math_exp.
  float_eval. rewrite He. cbn [bind]. float_eval.
  reflexivity.
Qed.

(** ** The run up to line 40

    On a moderate setting, lines 18-40 of the two embeddings agree, whatever
    the float [met]: the same stage raises the same exception, or all stages
    return and their values are finite. *)

Lemma calculate_pmv_stages (ta rh v clo : R) (tr pa : option R) (met : float) :
  moderate_setting ta rh v clo tr pa ->
  let t := match tr with None => ta | Some t => t end in
  let M := Binary64.fmul met (Fin 58.15) in
  Binary64.calculate_pmv (Fin ta) (Fin rh) (Fin v) met (Fin clo)
    (option_map Fin tr) (option_map Fin pa)
  = (p <- vapour_pressure ta rh pa ;;
     h <- hc ta t v ;;
     c <- tcl ta (clo * 0.155) ;;
     Binary64.pmv M (Fin 0) (Binary64.hl1 M (Fin 0) (Fin p))
       (Binary64.hl2 M (Fin 0)) (Binary64.hl3 M (Fin p))
       (Binary64.hl4 M (Fin ta))
       (Fin (hl5 (fcl clo) h c ta)) (Fin (hl6 (fcl clo) c t)))
  /\ forall p h c,
       vapour_pressure ta rh pa = Ok p -> hc ta t v = Ok h ->
       tcl ta (clo * 0.155) = Ok c ->
       mag 6 ta /\ mag 30 p /\ mag 40 (hl5 (fcl clo) h c ta)
       /\ mag 80 (hl6 (fcl clo) c t).
Proof.
  intros (Hta & Hrh & Hv & Hclo & Htr & Hpa & Hden) t M.
  apply mag_of_abs in Hta, Hrh, Hv, Hclo.
  assert (Ht : mag 6 t) by (unfold t; destruct tr; [apply mag_of_abs |]; assumption).
  assert (Hpa' : match pa with
                 | Some p => mag 6 p
                 | None => ta = -237.3 \/ -237 <= ta
                 end) by (destruct pa; [apply mag_of_abs |]; assumption).
  destruct (vapour_pressure_agrees ta rh pa Hta Hrh Hpa') as (Evp & Hp).
  destruct (hc_agrees ta t v Hta Ht Hv) as (Ehc & Hh).
  destruct (fcl_agrees clo Hclo) as (Efcl & Hf).
  destruct (Icl_fin clo Hclo) as (EIcl & HIcl).
  destruct (tcl_agrees ta (clo * 0.155) Hta HIcl Hden) as (Etcl & Hc).
  assert (H5 : forall h c, hc ta t v = Ok h -> tcl ta (clo * 0.155) = Ok c ->
                           mag 40 (hl5 (fcl clo) h c ta)).
  { intros h c Eh Ec. specialize (Hh h Eh). specialize (Hc c Ec).
    unfold hl5. eapply mag_weaken; [| mag]. simpl. lia. }
  split.
  - unfold Binary64.calculate_pmv. cbv zeta.
    replace (match option_map Fin tr with Some tr0 => tr0 | None => Fin ta end)
      with (Fin t) by (unfold t; destruct tr; reflexivity).
    rewrite Evp.
    destruct (vapour_pressure ta rh pa) as [p | e]; cbn [lift bind]; [| reflexivity].
    rewrite Ehc.
    destruct (hc ta t v) as [h | e]; cbn [lift bind]; [| reflexivity].
    rewrite Efcl, EIcl, Etcl.
    destruct (tcl ta (clo * 0.155)) as [c | e]; cbn [lift bind]; [| reflexivity].
    specialize (Hh h eq_refl). specialize (Hc c eq_refl).
    destruct (hl6_agrees (fcl clo) c t Hf Hc Ht) as (-> & _).
    cbn [bind].
    replace (Binary64.hl5 (Fin (fcl clo)) (Fin h) (Fin c) (Fin ta))
      with (Fin (hl5 (fcl clo) h c ta))
      by (unfold Binary64.hl5, hl5; float_eval; reflexivity).
    reflexivity.
  - intros p h c Ep Eh Ec.
    repeat split; auto.
    apply (hl6_agrees (fcl clo) c t Hf (Hc c Ec) Ht).
Qed.

(** ** The two embeddings agree on moderate inputs

    On a moderate input nothing overflows: the [Binary64] run raises the
    exception of the exact run, or returns the float of its value. *)

Lemma calculate_pmv_agrees (ta rh v met clo : R) (tr pa : option R) :
  moderate ta rh v met clo tr pa ->
  Binary64.calculate_pmv (Fin ta) (Fin rh) (Fin v) (Fin met) (Fin clo)
    (option_map Fin tr) (option_map Fin pa)
  = lift (calculate_pmv ta rh v met clo tr pa).
Proof.
  intros (Hset & Hmet).
  destruct (calculate_pmv_stages ta rh v clo tr pa (Fin met) Hset) as (-> & Hm).
  unfold calculate_pmv, calculate_pmv_locals. cbv zeta.
  destruct (vapour_pressure ta rh pa) as [p | e]; cbn [lift bind]; [| reflexivity].
  destruct (hc ta _ v) as [h | e]; cbn [lift bind]; [| reflexivity].
  destruct (tcl ta (clo * 0.155)) as [c | e]; cbn [lift bind]; [| reflexivity].
  destruct (Hm p h c eq_refl eq_refl eq_refl) as (Hta & Hp & H5 & H6).
  replace (Binary64.fmul (Fin met) (Fin 58.15)) with (Fin (met * 58.15)).
  - rewrite (pmv_agrees met p _ _ ta Hmet Hta Hp H5 H6). reflexivity.
  - assert (mag 6 met) by (apply mag_of_abs, Rabs_le; lra).
    float_eval. reflexivity.
Qed.

(** ** Where the range is exceeded *)

(** [math.exp] overflows from 1024 on (in fact from about 709.78 on), and
    [** 4] from a base of magnitude 1e78 on. *)

Lemma math_exp_overflow (x : R) :
  1024 <= x -> Binary64.math_exp (Fin x) = Raise OverflowError.
Proof.
  intros Hx. unfold Binary64.math_exp.
  destruct (Rle_dec Binary64.overflow_threshold (exp x)) as [_ | Hlt];
    [reflexivity |].
  exfalso. apply Hlt.
  pose proof (exp_ge_pow2 1024 x) as H.
  rewrite INR_IZR_INZ in H. simpl Z.of_nat in H. specialize (H Hx).
  pose proof overflow_threshold_below. lra.
Qed.

Lemma pow_4_overflow (x : R) :
  1e78 <= Rabs x -> Binary64.pow_4 (Fin x) = Raise OverflowError.
Proof.
  intros Hx. unfold Binary64.pow_4.
  destruct (Rle_dec Binary64.overflow_threshold (x ^ 4)) as [_ | Hlt];
    [reflexivity |].
  exfalso. apply Hlt.
  assert (H4 : 1e78 ^ 4 <= Rabs x ^ 4) by (apply pow_incr; lra).
  rewrite RPow_abs in H4.
  rewrite Rabs_pos_eq in H4
    by (replace (x ^ 4) with ((x * x) * (x * x)) by ring; nra).
  assert (Binary64.overflow_threshold <= 1e78 ^ 4); [| lra].
  replace (1e78 ^ 4) with (10 ^ 312) by lra.
  unfold Binary64.overflow_threshold. rewrite pow_IZR.
  apply IZR_le. vm_compute. discriminate.
Qed.

(** ** Stages that cannot raise *)

Lemma truediv_hundred (x : float) :
  exists h, Binary64.truediv x (Fin 100.0) = Ok h.
Proof.
  unfold Binary64.truediv.
  destruct (Req_dec_T 100.0 0) as [Hz | _]; [lra | eauto].
Qed.

Lemma math_exp_returns (q : float) :
  (forall r, q = Fin r -> r <= 646) -> exists e, Binary64.math_exp q = Ok e.
Proof.
  intros H. destruct q as [r | | |]; simpl; eauto.
  specialize (H r eq_refl).
  destruct (Rle_dec Binary64.overflow_threshold (exp r)) as [Hge | _]; eauto.
  exfalso.
  pose proof (exp_le_pow3 646 r) as Hle.
  rewrite INR_IZR_INZ in Hle. simpl Z.of_nat in Hle. specialize (Hle H).
  pose proof overflow_threshold_pow3. lra.
Qed.

Lemma overflow_threshold_pos : 0 < Binary64.overflow_threshold.
Proof. pose proof overflow_threshold_above. pose proof (pow10_pos 300). lra. Qed.

Lemma inf_times_not_fin (s r : R) : Binary64.inf_times s <> Fin r.
Proof.
  unfold Binary64.inf_times.
  destruct (Rlt_dec 0 s); [discriminate |].
  destruct (Rlt_dec s 0); discriminate.
Qed.

Lemma round_fin_inv (r x : R) : Binary64.round r = Fin x -> x = r.
Proof.
  unfold Binary64.round.
  destruct (Rle_dec Binary64.overflow_threshold r); [discriminate |].
  destruct (Rle_dec r (- Binary64.overflow_threshold)); [discriminate |].
  intros [= <-]. reflexivity.
Qed.

(** Line 27 above the pole: the quotient is below 17.27 (or is not finite),
    so that [math.exp] cannot overflow. *)
Lemma tetens_quotient (ta : R) :
  -237.3 < ta ->
  exists q,
    Binary64.truediv (Binary64.fmul (Fin 17.27) (Fin ta))
      (Binary64.fadd (Fin ta) (Fin 237.3)) = Ok q
    /\ (forall r, q = Fin r -> r <= 18)
    /\ (ta <= 1e300 -> q = NInf \/ exists r, q = Fin r).
Proof.
  intros Hta. cbn [Binary64.fmul Binary64.fadd].
  pose proof overflow_threshold_pos as Hthr.
  destruct (round_cases (ta + 237.3)) as [Hb | [(Hb & Hge) | (_ & Hle)]];
    [| | lra].
  - rewrite Hb. unfold Binary64.truediv.
    destruct (Req_dec_T (ta + 237.3) 0) as [Hz | _]; [lra |].
    eexists. split; [reflexivity |].
    assert (Hq : 17.27 * ta / (ta + 237.3) <= 18)
      by (apply Rdiv_le_upper; lra).
    split.
    + intros r Hr.
      destruct (Binary64.round (17.27 * ta)) as [a | | |] eqn:Ha.
      * apply round_fin_inv in Ha. subst a.
        apply round_fin_inv in Hr. subst r. assumption.
      * elim (inf_times_not_fin _ _ Hr).
      * elim (inf_times_not_fin _ _ Hr).
      * discriminate.
    + intros Hhi.
      assert (Hm : mag 300 ta).
      { unfold mag. apply Rabs_le. replace (10 ^ 300) with 1e300 by lra. lra. }
      rewrite (round_fin (17.27 * ta))
        by (eexists; split; [mag | reflexivity]).
      pose proof overflow_threshold_above as Habove.
      assert (H18 : 18 < 10 ^ 308) by lra.
      destruct (round_cases (17.27 * ta / (ta + 237.3)))
        as [-> | [(_ & Hge) | (-> & _)]]; [eauto | lra | auto].
  - rewrite Hb. cbn [Binary64.truediv]. eexists. split; [reflexivity |].
    split.
    + intros r Hr.
      destruct (Binary64.round (17.27 * ta)); try discriminate.
      injection Hr as <-. lra.
    + intros Hhi. exfalso.
      pose proof overflow_threshold_above.
      assert (10 ^ 300 <= 10 ^ 308) by (apply pow10_le; lia).
      replace (10 ^ 300) with 1e300 in * by lra. lra.
Qed.

Lemma pws_returns (ta : R) :
  -237.3 < ta -> exists s, Binary64.pws (Fin ta) = Ok s.
Proof.
  intros Hta. unfold Binary64.pws.
  destruct (tetens_quotient ta Hta) as (q & -> & Hq & _). cbn [bind].
  destruct (math_exp_returns q) as (e & ->).
  - intros r Hr. specialize (Hq r Hr). lra.
  - cbn [bind]. eauto.
Qed.

Lemma vapour_pressure_returns (ta : R) (rh : float) :
  -237.3 < ta -> exists p, Binary64.vapour_pressure (Fin ta) rh None = Ok p.
Proof.
  intros Hta. unfold Binary64.vapour_pressure.
  destruct (pws_returns ta Hta) as (s & ->). cbn [bind].
  destruct (truediv_hundred rh) as (h & ->). cbn [bind]. eauto.
Qed.

(** A call with [pa] omitted is the call with the [pa] that lines 27-28
    compute. *)
Lemma pa_omitted_is_computed (ta rh v met clo p : float) (tr : option float) :
  Binary64.vapour_pressure ta rh None = Ok p ->
  Binary64.calculate_pmv ta rh v met clo tr None
  = Binary64.calculate_pmv ta rh v met clo tr (Some p).
Proof. intros H. unfold Binary64.calculate_pmv. rewrite H. reflexivity. Qed.

(** With [rh = 0] the derived [pa] is zero. *)
Lemma vapour_pressure_dry (ta : R) :
  -237.3 < ta <= 1e300 ->
  Binary64.vapour_pressure (Fin ta) (Fin 0) None = Ok (Fin 0).
Proof.
  intros (Hlo & Hhi).
  unfold Binary64.vapour_pressure, Binary64.pws.
  destruct (tetens_quotient ta Hlo) as (q & -> & Hq & Hfin). cbn [bind].
  assert (He : exists e, Binary64.math_exp q = Ok (Fin e) /\ mag 18 e).
  { destruct (Hfin Hhi) as [-> | (r & ->)].
    - exists 0. split; [reflexivity |]. eapply mag_weaken; [| mag]. lia.
    - destruct (math_exp_fin 18 r) as (-> & Hm);
        [simpl Z.of_nat; apply Hq; reflexivity | reflexivity | eauto]. }
  destruct He as (e & -> & He). cbn [bind]. float_eval.
  rewrite truediv_agrees.
  - rewrite truediv_ok by lra. cbn [lift bind]. float_eval.
    do 2 f_equal. lra.
  - intros _. exists 4%nat. split; [| reflexivity].
    apply mag_const. lra.
Qed.

Lemma lift_Raise_iff (c : result R) (e : exn) : lift c = Raise e <-> c = Raise e.
Proof.
  destruct c as [r | e']; simpl; split; try discriminate; intros [= ->]; reflexivity.
Qed.

Lemma lift_raises_iff (c : result R) : raises (lift c) <-> raises c.
Proof.
  unfold raises. split; intros (e & He); exists e; apply lift_Raise_iff; assumption.
Qed.

(** ** Runs that leave the range *)

(** *** Line 27, just below the pole of the saturation-pressure formula

    For [ta] between -241 and -237.300001 the exponent
    [17.27 * ta / (ta + 237.3)] is at least 1024. *)

Lemma calculate_pmv_overflow_below_pole
    (ta : R) (rh v met clo : float) (tr : option float) :
  -241 <= ta <= -237.300001 ->
  Binary64.calculate_pmv (Fin ta) rh v met clo tr None = Raise OverflowError.
Proof.
  intros (Hlo & Hhi).
  assert (Hta : mag 4 ta) by (apply mag_const; lra).
  unfold Binary64.calculate_pmv, Binary64.vapour_pressure, Binary64.pws.
  cbv zeta. float_eval.
  assert (Hq : mag (4 + 4 + 6) (17.27 * ta / (ta + 237.3))).
  { apply mag_div; [mag |].
    rewrite <- Rabs_Ropp, Rabs_pos_eq by lra.
    replace (/ 10 ^ 6) with 0.000001 by lra. lra. }
  rewrite truediv_agrees by (intros _; eexists; split; [exact Hq | reflexivity]).
  rewrite truediv_ok by lra. cbn [lift bind].
  rewrite math_exp_overflow; [reflexivity |].
  replace (17.27 * ta / (ta + 237.3)) with (- (17.27 * ta) / - (ta + 237.3))
    by (field; lra).
  apply Rdiv_le_lower; lra.
Qed.

(** *** Line 40, a radiant temperature of magnitude 1e80

    [(tr + 273) ** 4] leaves the range; the stages before it return. *)

Lemma Rabs_ge_minus (x y : R) : Rabs x - Rabs y <= Rabs (x + y).
Proof.
  pose proof (Rabs_triang (x + y) (- y)) as H.
  replace (x + y + - y) with x in H by ring. rewrite Rabs_Ropp in H. lra.
Qed.

Lemma calculate_pmv_overflow_radiant
    (ta rh v clo tr : R) (pa : option R) (met : float) :
  moderate_setting ta rh v clo None pa ->
  (pa = None -> ta <> -237.3) ->
  6.45 * (clo * 0.155) + 0.1 <> 0 ->
  1e80 <= Rabs tr <= 1e200 ->
  Binary64.calculate_pmv (Fin ta) (Fin rh) (Fin v) met (Fin clo)
    (Some (Fin tr)) (option_map Fin pa)
  = Raise OverflowError.
Proof.
  intros (Hta & Hrh & Hv & Hclo & _ & Hpa & Hden) Hpole Hnz (Htr1 & Htr2).
  pose proof Hta as Hta'.
  apply mag_of_abs in Hta, Hrh, Hv, Hclo.
  assert (Htr : mag 200 tr).
  { unfold mag. replace (10 ^ 200) with 1e200 by lra. assumption. }
  assert (Hpa' : match pa with
                 | Some p => mag 6 p
                 | None => ta = -237.3 \/ -237 <= ta
                 end) by (destruct pa; [apply mag_of_abs |]; assumption).
  unfold Binary64.calculate_pmv. cbv zeta.
  destruct (vapour_pressure_agrees ta rh pa Hta Hrh Hpa') as (-> & _).
  rewrite (vapour_pressure_spec ta rh pa) by (intros E; specialize (Hpole E); lra).
  cbn [lift bind].
  assert (Hfar : Rabs (ta - tr) > 0.1).
  { pose proof (Rabs_ge_minus (- tr) ta) as H. rewrite Rabs_Ropp in H.
    replace (- tr + ta) with (ta - tr) in H by ring. lra. }
  unfold Binary64.hc. float_eval. cbn [Binary64.fgt].
  rewrite Rgtb_true by assumption.
  destruct (pow_quarter_fin (S (Nat.max 6 200)) (Rabs (ta - tr))) as (-> & _);
    [mag | apply Rabs_pos | reflexivity |].
  cbn [bind].
  destruct (fcl_agrees clo Hclo) as (-> & Hf).
  destruct (Icl_fin clo Hclo) as (_ & HIcl).
  destruct (tcl_agrees ta (clo * 0.155) Hta HIcl Hden) as (-> & Hc).
  rewrite tcl_ok in * by lra. cbn [lift bind].
  specialize (Hc _ eq_refl).
  unfold Binary64.hl6. float_eval.
  rewrite (pow_4_fin (S (Nat.max 13 4))) by (mag || reflexivity).
  cbn [bind].
  rewrite pow_4_overflow; [reflexivity |].
  pose proof (Rabs_ge_minus tr 273) as H.
  rewrite (Rabs_pos_eq 273) in H by lra. lra.
Qed.

(** *** Line 41, a metabolic rate below -500 met

    The exponent [-0.036 * M] is at least 1046. *)

Lemma calculate_pmv_overflow_metabolic
    (ta rh v met clo : R) (tr pa : option R) :
  moderate_setting ta rh v clo tr pa ->
  Spec.in_domain ta v clo tr pa ->
  -1e6 <= met <= -500 ->
  Binary64.calculate_pmv (Fin ta) (Fin rh) (Fin v) (Fin met) (Fin clo)
    (option_map Fin tr) (option_map Fin pa)
  = Raise OverflowError.
Proof.
  intros Hset (Hpa & Hv & Hden) Hmet.
  destruct (calculate_pmv_stages ta rh v clo tr pa (Fin met) Hset) as (-> & _).
  rewrite (vapour_pressure_spec ta rh pa Hpa). cbn [bind].
  replace (match tr with None => ta | Some t => t end)
    with (Spec.tr_default ta tr) by (destruct tr; reflexivity).
  rewrite (hc_spec _ _ _ Hv). cbn [bind].
  rewrite tcl_ok by exact Hden. cbn [bind].
  assert (Hm : mag 6 met) by (apply mag_of_abs, Rabs_le; lra).
  unfold Binary64.pmv. float_eval.
  rewrite math_exp_overflow; [reflexivity | lra].
Qed.

(** ** A result that is not a number

    From a metabolic rate of 1e307 met on, [M] is infinite, the heat-loss
    terms [hl1] and [hl2] are infinities of opposite signs, and line 41
    returns NaN. *)

Lemma inf_times_pos (s : R) : 0 < s -> Binary64.inf_times s = PInf.
Proof.
  intros H. unfold Binary64.inf_times. destruct (Rlt_dec 0 s); [reflexivity | contradiction].
Qed.

Lemma inf_times_neg (s : R) : s < 0 -> Binary64.inf_times s = NInf.
Proof.
  intros H. unfold Binary64.inf_times.
  destruct (Rlt_dec 0 s); [lra |].
  destruct (Rlt_dec s 0); [reflexivity | contradiction].
Qed.

Lemma round_overflow (r : R) :
  Binary64.overflow_threshold <= r -> Binary64.round r = PInf.
Proof.
  intros H. unfold Binary64.round.
  destruct (Rle_dec Binary64.overflow_threshold r); [reflexivity | contradiction].
Qed.

Ltac inf_step :=
  match goal with
  | |- context [Binary64.inf_times ?s] =>
      first [ rewrite (inf_times_pos s) by lra
            | rewrite (inf_times_neg s) by lra ]
  end.

Lemma calculate_pmv_not_a_number
    (ta rh v met clo : R) (tr pa : option R) :
  moderate_setting ta rh v clo tr pa ->
  Spec.in_domain ta v clo tr pa ->
  1e307 <= met ->
  Binary64.calculate_pmv (Fin ta) (Fin rh) (Fin v) (Fin met) (Fin clo)
    (option_map Fin tr) (option_map Fin pa)
  = Ok NaN.
Proof.
  intros Hset (Hpa & Hv & Hden) Hmet.
  destruct (calculate_pmv_stages ta rh v clo tr pa (Fin met) Hset) as (-> & Hm).
  rewrite (vapour_pressure_spec ta rh pa Hpa) in *. cbn [bind].
  replace (match tr with None => ta | Some t => t end)
    with (Spec.tr_default ta tr) in * by (destruct tr; reflexivity).
  rewrite (hc_spec _ _ _ Hv) in *. cbn [bind].
  rewrite tcl_ok in * by exact Hden. cbn [bind].
  destruct (Hm _ _ _ eq_refl eq_refl eq_refl) as (Hta & Hp & _ & _).
  set (p := Spec.pa_default ta rh pa) in *.
  set (h5 := hl5 _ _ _ _). set (h6 := hl6 _ _ _). clearbody p h5 h6.
  assert (HM : Binary64.fmul (Fin met) (Fin 58.15) = PInf).
  { cbn [Binary64.fmul]. apply round_overflow.
    pose proof overflow_threshold_below as Hb.
    assert (2 ^ 1024 <= 1e307 * 58.15); [| nra].
    replace (1e307 * 58.15) with (5815 * 10 ^ 305) by lra.
    replace 5815 with (IZR 5815) by reflexivity.
    replace 10 with (IZR 10) by reflexivity. replace 2 with (IZR 2) by reflexivity.
    rewrite !pow_IZR, <- mult_IZR. apply IZR_le. vm_compute. discriminate. }
  rewrite HM.
  unfold Binary64.pmv, Binary64.hl1, Binary64.hl2.
  repeat (cbn [Binary64.fmul Binary64.fsub Binary64.fadd Binary64.fneg
               Binary64.math_exp bind];
          first [round_step | inf_step]).
  destruct (Binary64.hl3 PInf (Fin p)), (Binary64.hl4 PInf (Fin ta)); reflexivity.
Qed.

(** ** Finite results on the typical ranges *)

Lemma reference_setting_moderate : moderate_setting 25 50 0.1 0.5 None None.
Proof.
  unfold moderate_setting. repeat split; try (apply Rabs_le; lra).
  - right. lra.
  - right. rewrite Rabs_pos_eq; lra.
Qed.

Lemma typical_range_moderate (ta rh v met clo : R) (tr pa : option R) :
  typical_range ta rh v met clo tr pa -> moderate ta rh v met clo tr pa.
Proof.
  intros ((Hta & Hrh & Hv & Hmet & Hclo) & Hv' & Hmet' & Hclo' & Htr & Hpa).
  unfold moderate, moderate_setting.
  repeat split; try (apply Rabs_le; lra); try lra.
  - destruct tr; [apply Rabs_le; lra | trivial].
  - destruct pa; [apply Rabs_le; lra | right; lra].
  - right. rewrite Rabs_pos_eq; lra.
Qed.

Lemma calculate_pmv_returns_finite (ta rh v met clo : R) (tr pa : option R) :
  moderate ta rh v met clo tr pa ->
  Spec.in_domain ta v clo tr pa ->
  Binary64.calculate_pmv (Fin ta) (Fin rh) (Fin v) (Fin met) (Fin clo)
    (option_map Fin tr) (option_map Fin pa)
  = Ok (Fin (Spec.evaluate_pmv ta rh v met clo tr pa)).
Proof.
  intros Hmod Hdom.
  rewrite (calculate_pmv_agrees _ _ _ _ _ _ _ Hmod).
  rewrite (calculate_pmv_ok _ _ _ _ _ _ _ Hdom). reflexivity.
Qed.

(** C4 (as amended).  On every input in the typical ranges ([ta] in
    10..40, [rh] in 0..100, [v] in 0..100, [met] in (0, 4], [clo] in 0..2,
    [tr] in -100..100 or omitted, [pa] in 0..100 or omitted)
    [calculate_pmv] raises nothing and returns a single finite float, the
    value of the closed form, of magnitude at most 11000.  The value is not
    clamped: there is an input in these ranges on which it lies
    above [+3]. *)
Theorem calculate_pmv_finite :
  (forall (ta rh v met clo : R) (tr pa : option R),
      typical_range ta rh v met clo tr pa ->
      exists r,
        Binary64.calculate_pmv (Fin ta) (Fin rh) (Fin v) (Fin met) (Fin clo)
          (option_map Fin tr) (option_map Fin pa) = Ok (Fin r)
        /\ r = Spec.evaluate_pmv ta rh v met clo tr pa
        /\ Rabs r <= 11000)
  /\ (exists (ta rh v met clo : R) (tr pa : option R) (r : R),
         typical_range ta rh v met clo tr pa
         /\ Binary64.calculate_pmv (Fin ta) (Fin rh) (Fin v) (Fin met) (Fin clo)
              (option_map Fin tr) (option_map Fin pa) = Ok (Fin r)
         /\ 3 < r).
Proof.
  split.
  - intros ta rh v met clo tr pa Htyp.
    exists (Spec.evaluate_pmv ta rh v met clo tr pa).
    split; [| split; [reflexivity | apply evaluate_pmv_bounded; assumption]].
    apply calculate_pmv_returns_finite.
    + apply typical_range_moderate. assumption.
    + apply (physically_valid_in_domain ta rh v met clo tr pa (proj1 Htyp)).
  - assert (Htyp : typical_range 40 100 0 4 2 None (Some 7)).
    { unfold typical_range, physically_valid. repeat split; lra. }
    exists 40, 100, 0, 4, 2, None, (Some 7).
    exists (Spec.evaluate_pmv 40 100 0 4 2 None (Some 7)).
    split; [exact Htyp |]. split; [| apply evaluate_pmv_hot_above_scale].
    apply calculate_pmv_returns_finite.
    + apply typical_range_moderate. assumption.
    + apply (physically_valid_in_domain 40 100 0 4 2 None (Some 7) (proj1 Htyp)).
Qed.

Lemma calculate_pmv_finite_witness :
  typical_range 25 50 0.1 1.2 0.5 None None
  /\ exists r,
       Binary64.calculate_pmv (Fin 25) (Fin 50) (Fin 0.1) (Fin 1.2) (Fin 0.5)
         None None = Ok (Fin r)
       /\ Rabs r <= 11000.
Proof.
  assert (Htyp : typical_range 25 50 0.1 1.2 0.5 None None).
  { unfold typical_range, physically_valid. repeat split; lra. }
  split; [exact Htyp |].
  destruct (proj1 calculate_pmv_finite 25 50 0.1 1.2 0.5 None None Htyp)
    as (r & Hr & _ & Hb).
  exists r. split; [exact Hr | exact Hb].
Defined.

(** C4 as stated fails for a finite [tr] or [met] of large magnitude: on
    the physically valid input [(25, 50, 0.1, 1.2, 0.5)] with [tr = 1e80]
    line 40 raises [OverflowError] ([(tr + 273) ** 4] leaves the range of
    binary64), and with [met = 1e308] the call returns NaN ([M] is
    infinite, and line 41 subtracts infinities). *)
Lemma calculate_pmv_finite_counterexample :
  (physically_valid 25 50 0.1 1.2 0.5
   /\ Binary64.calculate_pmv (Fin 25) (Fin 50) (Fin 0.1) (Fin 1.2) (Fin 0.5)
        (Some (Fin 1e80)) None
      = Raise OverflowError)
  /\ (physically_valid 25 50 0.1 1e308 0.5
      /\ Binary64.calculate_pmv (Fin 25) (Fin 50) (Fin 0.1) (Fin 1e308)
           (Fin 0.5) None None
         = Ok NaN).
Proof.
  split; [| split; [unfold physically_valid; lra |
    apply (calculate_pmv_not_a_number 25 50 0.1 1e308 0.5 None None);
      [exact reference_setting_moderate | exact reference_point_in_domain | lra]]].
  split; [unfold physically_valid; lra |].
  apply (calculate_pmv_overflow_radiant 25 50 0.1 0.5 1e80 None (Fin 1.2)).
  - exact reference_setting_moderate.
  - intros _. lra.
  - lra.
  - rewrite Rabs_pos_eq by lra. lra.
Qed.

(** ** Failure modes *)

(** C5 (as amended).  On an input of moderate magnitude, and away from the
    threshold of line 30 (within 0.0001 of it the rounding of [ta - tr],
    which is not modelled, decides the branch), a call fails exactly when
    one of three operations leaves its domain: the division by
    [ta + 237.3] in the derivation of an omitted [pa]
    ([ZeroDivisionError]), the square root of a negative [wind_speed] in
    the forced-convection branch ([ValueError]), or the division by
    [3.5 * (6.45*Icl + 0.1)] ([ZeroDivisionError]); it never raises
    [OverflowError], and when it does not fail it returns a finite float.
    The base of [** 0.25] is never negative.  Beyond moderate magnitudes
    there is a fourth failure: [OverflowError] from [math.exp] on line 27
    ([ta = -237.30001], [pa] omitted), from [** 4] on line 40
    ([tr = 1e100]) and from [math.exp] on line 41 ([met = -1000]). *)
Theorem calculate_pmv_failure_modes :
  (forall (ta rh v met clo : R) (tr pa : option R),
      moderate ta rh v met clo tr pa ->
      Rabs (ta - Spec.tr_default ta tr) <= 0.0999
      \/ 0.1001 <= Rabs (ta - Spec.tr_default ta tr) ->
      let run :=
        Binary64.calculate_pmv (Fin ta) (Fin rh) (Fin v) (Fin met) (Fin clo)
          (option_map Fin tr) (option_map Fin pa) in
      (raises run <->
         (pa = None /\ ta + 237.3 = 0)
         \/ (Rabs (ta - Spec.tr_default ta tr) <= 0.1 /\ v < 0)
         \/ 6.45 * (clo * 0.155) + 0.1 = 0)
      /\ (run = Raise ValueError <->
            (pa = None -> ta + 237.3 <> 0)
            /\ Rabs (ta - Spec.tr_default ta tr) <= 0.1 /\ v < 0)
      /\ (run = Raise ZeroDivisionError <->
            (pa = None /\ ta + 237.3 = 0)
            \/ ((pa = None -> ta + 237.3 <> 0)
                /\ (Rabs (ta - Spec.tr_default ta tr) <= 0.1 -> 0 <= v)
                /\ 6.45 * (clo * 0.155) + 0.1 = 0))
      /\ run <> Raise OverflowError
      /\ (raises run \/ exists r, run = Ok (Fin r))
      /\ 0 <= Rabs (ta - Spec.tr_default ta tr))
  /\ Binary64.calculate_pmv (Fin (-237.30001)) (Fin 50) (Fin 0.1) (Fin 1.2)
       (Fin 0.5) None None = Raise OverflowError
  /\ Binary64.calculate_pmv (Fin 25) (Fin 50) (Fin 0.1) (Fin 1.2) (Fin 0.5)
       (Some (Fin 1e100)) None = Raise OverflowError
  /\ Binary64.calculate_pmv (Fin 25) (Fin 50) (Fin 0.1) (Fin (-1000)) (Fin 0.5)
       None None = Raise OverflowError.
Proof.
  split; [| split; [| split]].
  - intros ta rh v met clo tr pa Hmod _ run.
    assert (Hrun : run = lift (calculate_pmv ta rh v met clo tr pa))
      by (apply calculate_pmv_agrees; assumption).
    clearbody run. subst run.
    destruct (calculate_pmv_domain_errors ta rh v met clo tr pa)
      as (Hr & Hv & Hz & Hb).
    rewrite lift_raises_iff, !lift_Raise_iff.
    repeat split; try tauto.
    + intros Ho.
      destruct (calculate_pmv_outcome ta rh v met clo tr pa)
        as [(_ & _ & H) | [(_ & _ & _ & H) | [(_ & _ & _ & H)
        | (_ & _ & _ & r & H)]]]; rewrite H in Ho; discriminate.
    + destruct (calculate_pmv ta rh v met clo tr pa) as [r | e].
      * right. exists r. reflexivity.
      * left. exists e. reflexivity.
  - apply calculate_pmv_overflow_below_pole. lra.
  - apply (calculate_pmv_overflow_radiant 25 50 0.1 0.5 1e100 None (Fin 1.2)).
    + exact reference_setting_moderate.
    + intros _. lra.
    + lra.
    + rewrite Rabs_pos_eq by lra. lra.
  - apply (calculate_pmv_overflow_metabolic 25 50 0.1 (-1000) 0.5 None None).
    + exact reference_setting_moderate.
    + exact reference_point_in_domain.
    + lra.
Qed.

Lemma calculate_pmv_failure_modes_witness :
  moderate 25 50 (-1) 1.2 0.5 None None
  /\ Binary64.calculate_pmv (Fin 25) (Fin 50) (Fin (-1)) (Fin 1.2) (Fin 0.5)
       None None
     = Raise ValueError.
Proof.
  assert (Hmod : moderate 25 50 (-1) 1.2 0.5 None None).
  { unfold moderate, moderate_setting. repeat split; try (apply Rabs_le; lra).
    - right. lra.
    - right. rewrite Rabs_pos_eq; lra.
    - lra.
    - lra. }
  split; [exact Hmod |].
  assert (Habs : Rabs (25 - Spec.tr_default 25 None) = 0).
  { simpl. replace (25 - 25) with 0 by lra. apply Rabs_R0. }
  destruct (proj1 calculate_pmv_failure_modes 25 50 (-1) 1.2 0.5 None None Hmod)
    as (_ & Hv & _).
  - left. rewrite Habs. lra.
  - apply Hv. split; [intros _; lra |].
    split; [rewrite Habs |]; lra.
Defined.

(** The failures of the exact embedding are failures of the [Binary64]
    embedding: at the pole of the saturation-pressure formula, and at the
    zero of the divisor of line 34. *)
Example pole_raises_zero_division :
  Binary64.calculate_pmv (Fin (-237.3)) (Fin 50) (Fin 0.1) (Fin 1.2) (Fin 0.5)
    None None
  = Raise ZeroDivisionError.
Proof.
  assert (Hmod : moderate (-237.3) 50 0.1 1.2 0.5 None None).
  { unfold moderate, moderate_setting. repeat split; try (apply Rabs_le; lra).
    - left. reflexivity.
    - right. rewrite Rabs_pos_eq; lra.
    - lra.
    - lra. }
  pose proof (calculate_pmv_agrees _ _ _ _ _ _ _ Hmod) as H.
  cbn [option_map] in H. rewrite H.
  rewrite pa_omitted_raises by lra. reflexivity.
Qed.

(** The sample call of the source returns the float of the closed form. *)
Example reference_point_finite :
  Binary64.calculate_pmv (Fin 25) (Fin 50) (Fin 0.1) (Fin 1.2) (Fin 0.5)
    None None
  = Ok (Fin (Spec.evaluate_pmv 25 50 0.1 1.2 0.5 None None)).
Proof.
  apply (calculate_pmv_returns_finite 25 50 0.1 1.2 0.5 None None);
    [| exact reference_point_in_domain].
  split; [exact reference_setting_moderate | lra].
Qed.

(** ** The derived vapour pressure *)

(** C7 (as amended).  For every [ta > -237.3], lines 27-28 raise nothing,
    and the call with [pa] omitted is the call with [pa] given as the value
    they compute, whatever the other arguments.  For [ta] from -237 to a
    million and [rh] within a million of zero that value is
    [rh/100 * (0.6108 * exp(17.27*ta/(ta+237.3)))]; and for every [ta] above
    -237.3 (up to 1e300) and [rh = 0] it is [0]: the call is the call with
    [pa = 0]. *)
Theorem pa_omitted_above_pole :
  (forall (ta : R) (rh v met clo : float) (tr : option float),
      -237.3 < ta ->
      exists p,
        Binary64.vapour_pressure (Fin ta) rh None = Ok p
        /\ Binary64.calculate_pmv (Fin ta) rh v met clo tr None
           = Binary64.calculate_pmv (Fin ta) rh v met clo tr (Some p))
  /\ (forall (ta rh : R) (v met clo : float) (tr : option float),
         -237 <= ta <= 1e6 -> Rabs rh <= 1e6 ->
         Binary64.calculate_pmv (Fin ta) (Fin rh) v met clo tr None
         = Binary64.calculate_pmv (Fin ta) (Fin rh) v met clo tr
             (Some (Fin (rh / 100
                         * (0.6108 * exp (17.27 * ta / (ta + 237.3)))))))
  /\ (forall (ta : R) (v met clo : float) (tr : option float),
         -237.3 < ta <= 1e300 ->
         Binary64.calculate_pmv (Fin ta) (Fin 0) v met clo tr None
         = Binary64.calculate_pmv (Fin ta) (Fin 0) v met clo tr
             (Some (Fin 0))).
Proof.
  split; [| split].
  - intros ta rh v met clo tr Hta.
    destruct (vapour_pressure_returns ta rh Hta) as (p & Hp).
    exists p. split; [exact Hp |].
    apply pa_omitted_is_computed. exact Hp.
  - intros ta rh v met clo tr Hta Hrh.
    apply pa_omitted_is_computed.
    assert (Hta' : mag 6 ta) by (apply mag_of_abs, Rabs_le; lra).
    destruct (vapour_pressure_agrees ta rh None Hta' (mag_of_abs rh Hrh))
      as (H & _); [right; lra |].
    cbn [option_map] in H. rewrite H.
    rewrite vapour_pressure_derived by lra. reflexivity.
  - intros ta v met clo tr Hta.
    apply pa_omitted_is_computed, vapour_pressure_dry. exact Hta.
Qed.

Lemma pa_omitted_above_pole_witness :
  Binary64.calculate_pmv (Fin 25) (Fin 0) (Fin 0.1) (Fin 1.2) (Fin 0.5) None None
  = Binary64.calculate_pmv (Fin 25) (Fin 0) (Fin 0.1) (Fin 1.2) (Fin 0.5) None
      (Some (Fin 0)).
Proof.
  apply (proj2 (proj2 pa_omitted_above_pole) 25 (Fin 0.1) (Fin 1.2) (Fin 0.5) None).
  lra.
Defined.

(** ** What the outcome depends on *)

(** [humidity] is only divided by 100 and multiplied: it cannot make
    lines 25-28 raise. *)

Lemma vapour_pressure_same_outcome (ta rh rh' : float) (pa : option float) :
  (exists e, Binary64.vapour_pressure ta rh pa = Raise e
             /\ Binary64.vapour_pressure ta rh' pa = Raise e)
  \/ (exists p p', Binary64.vapour_pressure ta rh pa = Ok p
                   /\ Binary64.vapour_pressure ta rh' pa = Ok p').
Proof.
  unfold Binary64.vapour_pressure. destruct pa as [p |]; [right; eauto |].
  destruct (Binary64.pws ta) as [s | e]; cbn [bind]; [| left; eauto].
  destruct (truediv_hundred rh) as (h & ->).
  destruct (truediv_hundred rh') as (h' & ->).
  cbn [bind]. right. eauto.
Qed.

Lemma pmv_returns (met : R) (W h1 h2 h3 h4 h5 h6 : float) :
  -300 <= met ->
  exists r,
    Binary64.pmv (Binary64.fmul (Fin met) (Fin 58.15)) W h1 h2 h3 h4 h5 h6
    = Ok r.
Proof.
  intros Hmet. unfold Binary64.pmv.
  destruct (math_exp_returns
              (Binary64.fmul (Fin (-0.036)) (Binary64.fmul (Fin met) (Fin 58.15))))
    as (e & ->); [| cbn [bind]; eauto].
  intros r Hr. cbn [Binary64.fmul] in Hr.
  pose proof overflow_threshold_above as Hthr.
  assert (H308 : 17445 < 10 ^ 308) by lra.
  destruct (round_cases (met * 58.15)) as [E | [(E & _) | (_ & Hle)]];
    [| | lra]; rewrite E in Hr; cbn [Binary64.fmul] in Hr.
  - apply round_fin_inv in Hr. lra.
  - elim (inf_times_not_fin _ _ Hr).
Qed.

(** X7.  Whether a call returns or raises, and which exception it raises,
    does not depend on [humidity], nor on [met] as long as [met >= -300]
    (so that [math.exp] on line 41 stays in range): for all floats in the
    other arguments, two such calls raise the same exception or both
    return. *)
Theorem outcome_ignores_humidity_and_met
    (ta rh rh' v clo : float) (met met' : R) (tr pa : option float) :
  -300 <= met -> -300 <= met' ->
  (forall e, Binary64.calculate_pmv ta rh v (Fin met) clo tr pa = Raise e
             <-> Binary64.calculate_pmv ta rh' v (Fin met') clo tr pa = Raise e)
  /\ ((exists r, Binary64.calculate_pmv ta rh v (Fin met) clo tr pa = Ok r)
      <-> (exists r', Binary64.calculate_pmv ta rh' v (Fin met') clo tr pa
                      = Ok r')).
Proof.
  intros Hmet Hmet'. unfold Binary64.calculate_pmv. cbv zeta.
  destruct (vapour_pressure_same_outcome ta rh rh' pa)
    as [(e & -> & ->) | (p & p' & -> & ->)]; cbn [bind].
  { split; [tauto |]. split; intros (r & Hr); discriminate. }
  destruct (Binary64.hc ta _ v) as [h | e]; cbn [bind].
  2: { split; [tauto |]. split; intros (r & Hr); discriminate. }
  destruct (Binary64.tcl ta _) as [c | e]; cbn [bind].
  2: { split; [tauto |]. split; intros (r & Hr); discriminate. }
  destruct (Binary64.hl6 _ c _) as [h6 | e]; cbn [bind].
  2: { split; [tauto |]. split; intros (r & Hr); discriminate. }
  match goal with
  | |- context [Binary64.pmv _ ?W ?a1 ?a2 ?a3 ?a4 ?a5 ?a6 = Raise _] =>
      destruct (pmv_returns met W a1 a2 a3 a4 a5 a6 Hmet) as (r & ->)
  end.
  match goal with
  | |- context [Binary64.pmv ?M ?W ?a1 ?a2 ?a3 ?a4 ?a5 ?a6 = Raise _] =>
      destruct (pmv_returns met' W a1 a2 a3 a4 a5 a6 Hmet') as (r' & ->)
  end.
  split.
  - intros e. split; discriminate.
  - split; intros _; eauto.
Qed.

Lemma outcome_ignores_humidity_and_met_witness :
  (exists r, Binary64.calculate_pmv (Fin 25) (Fin 50) (Fin 0.1) (Fin 1.2)
               (Fin 0.5) None None = Ok r)
  <-> (exists r', Binary64.calculate_pmv (Fin 25) (Fin 90) (Fin 0.1) (Fin 3)
                    (Fin 0.5) None None = Ok r').
Proof.
  apply (outcome_ignores_humidity_and_met (Fin 25) (Fin 50) (Fin 90) (Fin 0.1)
           (Fin 0.5) 1.2 3 None None); lra.
Defined.

(** ** Forced convection when [tr] is omitted *)

Lemma hc_same_temperature_neg (ta v : R) :
  v < 0 -> Binary64.hc (Fin ta) (Fin ta) (Fin v) = Raise ValueError.
Proof.
  intros Hv. unfold Binary64.hc. cbn [Binary64.fsub].
  replace (ta - ta) with 0 by ring.
  rewrite round_in_range
    by (rewrite Rabs_R0; apply overflow_threshold_pos).
  cbn [Binary64.fabs Binary64.fgt]. rewrite Rabs_R0.
  rewrite Rgtb_false by lra.
  unfold Binary64.math_sqrt.
  destruct (Rlt_dec v 0); [reflexivity | contradiction].
Qed.

Lemma calculate_pmv_negative_speed
    (ta v : R) (rh met clo : float) (pa : option float) :
  v < 0 -> (pa = None -> -237.3 < ta) ->
  Binary64.calculate_pmv (Fin ta) rh (Fin v) met clo None pa = Raise ValueError.
Proof.
  intros Hv Hpa. unfold Binary64.calculate_pmv. cbv zeta.
  assert (Hp : exists p, Binary64.vapour_pressure (Fin ta) rh pa = Ok p).
  { destruct pa as [p |]; [exists p; reflexivity |].
    apply vapour_pressure_returns, Hpa. reflexivity. }
  destruct Hp as (p & ->). cbn [bind].
  rewrite hc_same_temperature_neg by assumption. reflexivity.
Qed.

Lemma calculate_pmv_negative_speed_raises
    (ta v : R) (rh met clo : float) (pa : option float) :
  v < 0 ->
  raises (Binary64.calculate_pmv (Fin ta) rh (Fin v) met clo None pa).
Proof.
  intros Hv. unfold raises, Binary64.calculate_pmv. cbv zeta.
  destruct (Binary64.vapour_pressure (Fin ta) rh pa) as [p | e]; cbn [bind];
    [| eauto].
  rewrite hc_same_temperature_neg by assumption. cbn [bind]. eauto.
Qed.

(** X10.  With [tr] omitted the natural-convection formula is never used:
    every run that returns has [hc = 12.1 * sqrt v] with [v >= 0], and a
    negative [wind_speed] always makes the call raise; the exception is
    [ValueError] as soon as lines 25-28 raise nothing, that is when [pa] is
    given or [ta > -237.3]. *)
Theorem tr_omitted_forced_convection (ta rh v met clo : R) (pa : option R) :
  (forall l, calculate_pmv_locals ta rh v met clo None pa = Ok l ->
             0 <= v /\ Locals.tr l = ta /\ Locals.hc l = 12.1 * sqrt v)
  /\ (v < 0 -> exists e, calculate_pmv ta rh v met clo None pa = Raise e)
  /\ (v < 0 ->
      forall (rh' met' clo' : float) (pa' : option float),
        raises (Binary64.calculate_pmv (Fin ta) rh' (Fin v) met' clo' None pa')
        /\ ((pa' = None -> -237.3 < ta) ->
            Binary64.calculate_pmv (Fin ta) rh' (Fin v) met' clo' None pa'
            = Raise ValueError)).
Proof.
  assert (Habs : Rabs (ta - Spec.tr_default ta None) <= 0.1).
  { simpl. replace (ta - ta) with 0 by lra. rewrite Rabs_R0. lra. }
  split; [| split].
  - intros l Hrun.
    destruct (calculate_pmv_locals_inv _ _ _ _ _ _ _ _ Hrun)
      as (pa' & hc' & t & _ & Hh & _ & ->).
    simpl. apply hc_Ok_inv in Hh.
    destruct Hh as [(Hgt & _) | (_ & Hv & ->)]; [lra | auto].
  - intros Hv.
    destruct (calculate_pmv_outcome ta rh v met clo None pa)
      as [(_ & _ & H) | [(_ & _ & _ & H) | [(_ & Hv' & _) | (_ & Hv' & _)]]];
      eauto; specialize (Hv' Habs); lra.
  - intros Hv rh' met' clo' pa'. split.
    + apply calculate_pmv_negative_speed_raises. assumption.
    + intros Hpa. apply calculate_pmv_negative_speed; assumption.
Qed.

Lemma tr_omitted_forced_convection_witness :
  Binary64.calculate_pmv (Fin 25) (Fin 50) (Fin (-1)) (Fin 1.2) (Fin 0.5)
    None None
  = Raise ValueError.
Proof.
  apply (proj2 (proj2 (tr_omitted_forced_convection 25 50 (-1) 1.2 0.5 None))
           ltac:(lra) (Fin 50) (Fin 1.2) (Fin 0.5) None).
  intros _. lra.
Defined.
